(** * Keeper PAM bulk onboarding: a shallow embedding of
      [create_pam_script_improved.py] and the properties of its pipeline

    The script reads a CSV of hosts, optionally filters the hosts by a TCP
    probe, generates a [pamUser]/[pamMachine] record pair per distinct host
    and writes one JSON document and three command files.

    Conventions of the embedding.
    - A Python [str] is a [string]; each [ascii] stands for one character
      (code points below 256).  Files hold text: the file system maps a path
      to the text of the file.  The dashes of the script's log messages lie
      outside that range and stand in the literals as their UTF-8 bytes.
    - Python dictionaries built from literals ([records], the JSON wrapper)
      are [json] objects: association lists in insertion order.
    - Effects (logging, the file system, [uuid.uuid4]) are threaded through
      a state-and-exception monad [M] over [world]; what the script obtains
      from outside (the CSV dialect parser, the random source, the clock,
      the network) is a [Variable] of the section that uses it.
    - A raised Python exception is [Raise e]; [sys.exit(n)] is
      [Raise (SystemExit n)]. *)

From Stdlib Require Import ZArith QArith Ascii String DecimalString Decimal.
From stdpp Require Import gmap strings list.

Local Open Scope Z_scope.

(** ** Text primitives of the Python runtime *)

Module Py.

(** [str.isspace] on one character (code points below 256): TAB..CR,
    the separators FS..US, SPACE, NEL and NBSP. *)
Definition isspace (c : ascii) : bool :=
  let n := N_of_ascii c in
  ((9 <=? n) && (n <=? 13) || (28 <=? n) && (n <=? 32)
   || (n =? 133) || (n =? 160))%N.

Fixpoint lstrip (s : string) : string :=
  match s with
  | EmptyString => EmptyString
  | String c s' => if isspace c then lstrip s' else s
  end.

Fixpoint rstrip (s : string) : string :=
  match s with
  | EmptyString => EmptyString
  | String c s' =>
      match rstrip s' with
      | EmptyString => if isspace c then EmptyString else String c EmptyString
      | r => String c r
      end
  end.

(** [s.strip()] *)
Definition strip (s : string) : string := rstrip (lstrip s).

(** Truthiness of a [str]: non-empty. *)
Definition truthy (s : string) : bool :=
  match s with EmptyString => false | _ => true end.

(** [s.replace(old, new)] for one-character [old] and [new]. *)
Fixpoint replace_char (old new : ascii) (s : string) : string :=
  match s with
  | EmptyString => EmptyString
  | String c s' =>
      String (if Ascii.eqb c old then new else c) (replace_char old new s')
  end.

(** [sep.join(parts)] *)
Fixpoint join (sep : string) (parts : list string) : string :=
  match parts with
  | [] => ""
  | [p] => p
  | p :: ps => p +:+ sep +:+ join sep ps
  end.

(** [str(n)] for an [int]. *)
Definition str_int (n : Z) : string := NilZero.string_of_int (Z.to_int n).

(** [s.ljust(w)], used by the [%-8s] of the log format. *)
Fixpoint ljust (w : nat) (s : string) : string :=
  match w, s with
  | O, _ => s
  | S w', EmptyString => String " " (ljust w' EmptyString)
  | S w', String c s' => String c (ljust w' s')
  end.

(** [s.endswith(suffix)] as a proposition. *)
Definition endswith (s suffix : string) : Prop := ∃ p, s = p +:+ suffix.

(** [c in s] for a character. *)
Fixpoint contains_char (c : ascii) (s : string) : bool :=
  match s with
  | EmptyString => false
  | String d s' => Ascii.eqb d c || contains_char c s'
  end.

End Py.

(** ** Exceptions and results *)

(** The subclasses of [OSError] that a connection attempt or a file
    operation raises. *)
Inductive os_error :=
| ConnectionRefusedError
| TimeoutError
| GaiError
| NetworkUnreachable
| IsADirectoryError
| PermissionError.

Inductive exn :=
| SystemExit (code : Z)
| KeyError (key : string)
| AttributeError (what : string)
| OSError (e : os_error)
| ValueError (what : string)
| UnicodeError (what : string).

(** [isinstance(e, OSError)] *)
Definition is_OSError (e : exn) : bool :=
  match e with OSError _ => true | _ => false end.

Inductive result (A : Type) :=
| Ok (a : A)
| Raise (e : exn).
Arguments Ok {A} a.
Arguments Raise {A} e.

(** ** JSON values: what [json.dumps] is given and [json.loads] returns *)

Unset Elimination Schemes.
Inductive json :=
| JNull
| JBool (b : bool)
| JStr (s : string)
| JArr (items : list json)
| JObj (members : list (string * json)).
Set Elimination Schemes.

(** [d[k]] / [d.get(k)] on an insertion-ordered dictionary. *)
Fixpoint dict_get {V} (k : string) (d : list (string * V)) : option V :=
  match d with
  | [] => None
  | (k', v) :: d' => if String.eqb k' k then Some v else dict_get k d'
  end.

(** [d[k] = v]: replaces the value in place, or appends a new key. *)
Fixpoint dict_set {V} (k : string) (v : V) (d : list (string * V))
  : list (string * V) :=
  match d with
  | [] => [(k, v)]
  | (k', v') :: d' =>
      if String.eqb k' k then (k', v) :: d' else (k', v') :: dict_set k v d'
  end.

Definition json_get (k : string) (j : json) : option json :=
  match j with JObj d => dict_get k d | _ => None end.

(** ** Constants of the module *)

Definition _DEFAULT_PORTS : list (string * Z) :=
  [("rdp", 3389); ("ssh", 22); ("sql-server", 1433);
   ("mysql", 3306); ("postgresql", 5432)].

(** [choices=list(_DEFAULT_PORTS)] of the [--protocol] option. *)
Definition protocol_choices : list string := _DEFAULT_PORTS.*1.

(** [_DEFAULT_PORTS[p]] *)
Definition default_port (p : string) : result Z :=
  match dict_get p _DEFAULT_PORTS with
  | Some n => Ok n
  | None => Raise (KeyError p)
  end.

(** ** The [json] module of the Python library

    [json.dumps(obj, indent=2)] with the default [ensure_ascii=True] and
    [json.loads], following the pure-Python encoder and decoder of CPython
    ([json/encoder.py], [json/decoder.py], [json/scanner.py]) on the values
    this script builds: dictionaries with [str] keys, lists, [str], [bool]
    and [None].  Numbers are outside the model: the script serialises none
    (the port is a [str]) and [loads] rejects them. *)

Module Json.

(** The double-quote character. *)
Definition dq : ascii := "034"%char.

Definition hex_digit (n : N) : ascii :=
  match n with
  | 0 => "0" | 1 => "1" | 2 => "2" | 3 => "3" | 4 => "4" | 5 => "5"
  | 6 => "6" | 7 => "7" | 8 => "8" | 9 => "9" | 10 => "a" | 11 => "b"
  | 12 => "c" | 13 => "d" | 14 => "e" | _ => "f"
  end%N%char.

(** [ESCAPE_ASCII] and [ESCAPE_DCT]: backslash, quote and everything outside
    [' '..'~'] is escaped; the named escapes first, [\uXXXX] otherwise. *)
Definition escape_char (c : ascii) : string :=
  match c with
  | "034"%char => String "\" (String dq "")
  | "\"%char => "\\"
  | "010"%char => "\n"
  | "013"%char => "\r"
  | "009"%char => "\t"
  | "008"%char => "\b"
  | "012"%char => "\f"
  | _ =>
      let n := N_of_ascii c in
      if ((32 <=? n) && (n <=? 126))%N then String c ""
      else "\u00" +:+ String (hex_digit (n / 16))
                       (String (hex_digit (n mod 16)) "")
  end.

Fixpoint escape (s : string) : string :=
  match s with
  | EmptyString => ""
  | String c s' => escape_char c +:+ escape s'
  end.

(** [py_encode_basestring_ascii] *)
Definition encode_string (s : string) : string :=
  String dq (escape s +:+ String dq "").

(** [_indent * _current_indent_level] with [indent=2]. *)
Fixpoint indent (level : nat) : string :=
  match level with
  | O => ""
  | S l => String " " (String " " (indent l))
  end.

Definition newline_indent (level : nat) : string := String "010" (indent level).

(** [_iterencode] with [_iterencode_list] and [_iterencode_dict]: item
    separator [","], key separator [": "], keys in insertion order. *)
Fixpoint iterencode (level : nat) (v : json) : string :=
  match v with
  | JNull => "null"
  | JBool true => "true"
  | JBool false => "false"
  | JStr s => encode_string s
  | JArr [] => "[]"
  | JArr (x :: xs) =>
      "[" +:+ newline_indent (S level) +:+ iterencode (S level) x
      +:+ (fix rest (l : list json) : string :=
             match l with
             | [] => ""
             | y :: l' =>
                 "," +:+ newline_indent (S level) +:+ iterencode (S level) y
                 +:+ rest l'
             end) xs
      +:+ newline_indent level +:+ "]"
  | JObj [] => "{}"
  | JObj ((k, x) :: ms) =>
      "{" +:+ newline_indent (S level) +:+ encode_string k +:+ ": "
      +:+ iterencode (S level) x
      +:+ (fix rest (l : list (string * json)) : string :=
             match l with
             | [] => ""
             | (k', y) :: l' =>
                 "," +:+ newline_indent (S level) +:+ encode_string k'
                 +:+ ": " +:+ iterencode (S level) y +:+ rest l'
             end) ms
      +:+ newline_indent level +:+ "}"
  end.

(** The second and later items of a list, each after its separator. *)
Fixpoint more_items (level : nat) (l : list json) : string :=
  match l with
  | [] => ""
  | y :: l' =>
      "," +:+ newline_indent level +:+ iterencode level y
      +:+ more_items level l'
  end.

Fixpoint more_members (level : nat) (l : list (string * json))
  : string :=
  match l with
  | [] => ""
  | (k, y) :: l' =>
      "," +:+ newline_indent level +:+ encode_string k +:+ ": "
      +:+ iterencode level y +:+ more_members level l'
  end.

(** [json.dumps(obj, indent=2)] *)
Definition dumps (v : json) : string := iterencode 0 v.

(** [WHITESPACE = [ \t\n\r]*] *)
Definition is_ws (c : ascii) : bool :=
  match c with
  | " " | "009" | "010" | "013" => true
  | _ => false
  end%char.

Fixpoint skip_ws (s : string) : string :=
  match s with
  | EmptyString => ""
  | String c s' => if is_ws c then skip_ws s' else s
  end.

(** The value of a hexadecimal digit, in either case ([int(esc, 16)]). *)
Definition hex_value (c : ascii) : option N :=
  let n := N_of_ascii c in
  if ((48 <=? n) && (n <=? 57))%N then Some (n - 48)%N
  else if ((97 <=? n) && (n <=? 102))%N then Some (n - 87)%N
  else if ((65 <=? n) && (n <=? 70))%N then Some (n - 55)%N
  else None.

(** The four hexadecimal digits of a [\uXXXX] escape. *)
Definition hex4 (a b c d : ascii) : option N :=
  match hex_value a, hex_value b, hex_value c, hex_value d with
  | Some x, Some y, Some z, Some w => Some (((x * 16 + y) * 16 + z) * 16 + w)%N
  | _, _, _, _ => None
  end.

(** [BACKSLASH]: the one-character escapes. *)
Definition unescape (c : ascii) : option ascii :=
  match c with
  | "034" => Some dq
  | "\" => Some "\"
  | "/" => Some "/"
  | "b" => Some "008"
  | "f" => Some "012"
  | "n" => Some "010"
  | "r" => Some "013"
  | "t" => Some "009"
  | _ => None
  end%char.

Definition cons_char (c : ascii) (r : option (string * string))
  : option (string * string) :=
  match r with
  | Some (s, rest) => Some (String c s, rest)
  | None => None
  end.

(** [py_scanstring(s, end, strict=True)], entered after the opening quote:
    the decoded string and the text after the closing quote.  A literal
    control character is an error; a code point of 256 or more is outside
    the character model and gives [None]. *)
Fixpoint scanstring (s : string) : option (string * string) :=
  match s with
  | EmptyString => None
  | String c s' =>
      if Ascii.eqb c dq then Some ("", s')
      else if Ascii.eqb c "\" then
        match s' with
        | String "u" (String h1 (String h2 (String h3 (String h4 s'')))) =>
            match hex4 h1 h2 h3 h4 with
            | Some n =>
                if (n <? 256)%N then cons_char (ascii_of_N n) (scanstring s'')
                else None
            | None => None
            end
        | String e s'' =>
            match unescape e with
            | Some ch => cons_char ch (scanstring s'')
            | None => None
            end
        | EmptyString => None
        end
      else if (N_of_ascii c <? 32)%N then None
      else cons_char c (scanstring s')
  end.

(** [scan_once], [JSONArray] and [JSONObject].  [parse_items] starts at a
    value of a list; [parse_members] starts after the opening quote of a
    key.  The pairs of an object become a dictionary, so a repeated key
    keeps its first position and its last value.  The recursion of the
    decoder is bounded by [fuel]. *)
Fixpoint scan_once (fuel : nat) (s : string) : option (json * string) :=
  match fuel with
  | O => None
  | S fuel =>
      match s with
      | String "034" s' =>
          match scanstring s' with
          | Some (str, r) => Some (JStr str, r)
          | None => None
          end
      | String "{" s' =>
          match skip_ws s' with
          | String "}" r => Some (JObj [], r)
          | String "034" r => parse_members fuel r []
          | _ => None
          end
      | String "[" s' =>
          let s1 := skip_ws s' in
          match s1 with
          | String "]" r => Some (JArr [], r)
          | _ => parse_items fuel s1 []
          end
      | String "n" (String "u" (String "l" (String "l" r))) => Some (JNull, r)
      | String "t" (String "r" (String "u" (String "e" r))) =>
          Some (JBool true, r)
      | String "f" (String "a" (String "l" (String "s" (String "e" r)))) =>
          Some (JBool false, r)
      | _ => None
      end%char
  end
with parse_items (fuel : nat) (s : string) (acc : list json)
  : option (json * string) :=
  match fuel with
  | O => None
  | S fuel =>
      match scan_once fuel s with
      | Some (v, r) =>
          match skip_ws r with
          | String "]" r' => Some (JArr (acc ++ [v]), r')
          | String "," r' => parse_items fuel (skip_ws r') (acc ++ [v])
          | _ => None
          end%char
      | None => None
      end
  end
with parse_members (fuel : nat) (s : string) (acc : list (string * json))
  : option (json * string) :=
  match fuel with
  | O => None
  | S fuel =>
      match scanstring s with
      | Some (k, r) =>
          match skip_ws r with
          | String ":" r1 =>
              match scan_once fuel (skip_ws r1) with
              | Some (v, r2) =>
                  match skip_ws r2 with
                  | String "}" r3 => Some (JObj (dict_set k v acc), r3)
                  | String "," r3 =>
                      match skip_ws r3 with
                      | String "034" r4 =>
                          parse_members fuel r4 (dict_set k v acc)
                      | _ => None
                      end
                  | _ => None
                  end
              | None => None
              end
          | _ => None
          end%char
      | None => None
      end
  end.

(** [json.loads(s)]: one value between optional whitespace; [None] stands
    for [JSONDecodeError]. *)
Definition loads (s : string) : option json :=
  match scan_once (S (String.length s)) (skip_ws s) with
  | Some (v, r) =>
      match skip_ws r with
      | EmptyString => Some v
      | _ => None
      end
  | None => None
  end.

End Json.

(** ** The world: file system, emitted log records, random draws *)

Inductive level := INFO | WARNING | ERROR.

Definition levelname (l : level) : string :=
  match l with INFO => "INFO" | WARNING => "WARNING" | ERROR => "ERROR" end.

Record log_record := LogRecord { lr_level : level; lr_message : string }.

(** [fs]: the regular files, path to text.  [console]: the records the
    console handler has emitted, oldest first.  [uuid_calls]: how many
    times [uuid.uuid4()] has been called. *)
Record world := World {
  fs : gmap string string;
  console : list log_record;
  uuid_calls : nat
}.

(** A computation of the script: from a world to a value or a raised
    exception, and the world it leaves behind. *)
Definition M (A : Type) : Type := world → result A * world.

Definition ret {A} (a : A) : M A := λ w, (Ok a, w).

Definition raise {A} (e : exn) : M A := λ w, (Raise e, w).

Definition bind {A B} (m : M A) (k : A → M B) : M B :=
  λ w, match m w with
       | (Ok a, w') => k a w'
       | (Raise e, w') => (Raise e, w')
       end.

Notation "'let*' x ':=' m 'in' k" := (bind m (λ x, k))
  (at level 10, x name, m at level 100, k at level 200,
   format "'[v' 'let*'  x  ':='  m  'in' '/' k ']'").
Notation "m ';;' k" := (bind m (λ _, k))
  (at level 100, k at level 200, right associativity).

(** A pure computation that may raise. *)
Definition lift {A} (r : result A) : M A := λ w, (r, w).

(** ** The records of the data model *)

(** A loaded CSV row: the dictionary with the keys [hostname], [user] and
    [password]. *)
Record host_row := HostRow {
  hostname : string;
  user : string;
  password : string
}.

(** The parsed command line ([argparse.Namespace]). *)
Record args := Args {
  gateway_uid : string;
  csv : string;
  user_folder : string;
  resource_folder : string;
  parent_folder : option string;
  rotation_admin_uid : option string;
  schedulejson : string;
  protocol : string;
  os : string;
  enable_ssl_verification : bool;
  dry_run : bool;
  connectivity_check : bool;
  threads : Z
}.

(** [--protocol] has [choices]: the parser rejects any other value. *)
Definition protocol_accepted (p : string) : bool :=
  bool_decide (p ∈ protocol_choices).

(** Truthiness of an optional string argument ([None] and [""] are false). *)
Definition opt_truthy (o : option string) : bool :=
  match o with Some s => Py.truthy s | None => false end.

(** A one-character string holding the double quote. *)
Definition DQ : string := String Json.dq "".

(** *** [_build_cli] (lines 81-152): the defaults of the options

    [os.cpu_count()] is [None] or a count; [x or 1] is [1] for [None] and
    for [0]. *)
Definition default_threads (cpu_count : option Z) : Z :=
  Z.min 32
    ((match cpu_count with
      | Some n => if (n =? 0)%Z then 1 else n
      | None => 1
      end) * 5).



Section script.

Set Default Proof Using "Type".

(** [datetime.utcnow()] in the format [%Y%m%dT%H%M%SZ] at the moment the
    module is loaded. *)
Variable start_stamp : string.

(** [%(asctime)s] of the n-th record emitted. *)
Variable asctime : nat → string.

(** The time [_cmdfile_header] prints for the file with the given title. *)
Variable header_stamp : string → string.

(** [uuid.uuid4().hex] at the n-th call. *)
Variable uuid4_hex : nat → string.

(** [csv.reader] with the default dialect: the records of a text, each a
    list of fields (a blank line is the empty record). *)
Variable csv_reader : string → list (list string).

(** [socket.create_connection((host, port), timeout)] of the n-th probe
    submitted: returns a socket or raises. *)
Variable net : nat → string → Z → Q → result unit.

(** *** Logging (lines 40-52) *)

(** The name of the run log. *)
Definition log_path : string := "bulk_onboard_" +:+ start_stamp +:+ ".log".

(** [LOG_FMT] applied to a record, one line. *)
Definition format_record (n : nat) (r : log_record) : string :=
  asctime n +:+ " | " +:+ Py.ljust 8 (levelname (lr_level r)) +:+ " | "
  +:+ lr_message r +:+ String "010" "".

(** Opening a file for appending creates it when it does not exist. *)
Definition open_append (path : string) (f : gmap string string)
  : gmap string string :=
  match f !! path with
  | Some _ => f
  | None => <[path := ""]> f
  end.

Definition append_text (path text : string) (f : gmap string string)
  : gmap string string :=
  <[path := default "" (f !! path) +:+ text]> f.

(** Loading the module: [logging.FileHandler(Path(...))] opens the run log. *)
Definition module_init : M unit :=
  λ w, (Ok (), World (open_append log_path (fs w)) (console w) (uuid_calls w)).

(** [logger.log(level, message)]: both handlers emit the record, the console
    handler to the terminal and the file handler to the run log. *)
Definition log (l : level) (message : string) : M unit :=
  λ w, let r := LogRecord l message in
       (Ok (),
        World (append_text log_path (format_record (length (console w)) r)
                 (fs w))
              (console w ++ [r]) (uuid_calls w)).

(** *** [_probe] (lines 66-73) *)

Definition _probe (connect : string → Z → Q → result unit)
    (host : string) (port : Z) (timeout : Q) : result bool :=
  match connect host port timeout with
  | Ok _ => Ok true
  | Raise e => if is_OSError e then Ok false else Raise e
  end.

(** The defaults of [_probe]'s parameters. *)
Definition _probe_port : Z := 5986.
Definition _probe_timeout : Q := 3 # 1.

(** *** [_read_csv] (lines 160-179) *)

(** [csv.DictReader]: the first record gives the field names; every later
    record that is not empty becomes a dictionary from field name to field,
    a later duplicate of a field name winning; the field names a short
    record does not reach map to [None] ([restval]).  The surplus fields of
    a long record are filed under the key [None], which no lookup by name
    reaches, and are left out. *)
Definition DictReader_row (fieldnames record : list string)
  : gmap string (option string) :=
  foldl (λ d key, <[key := None]> d)
        (foldl (λ d kv, <[kv.1 := Some kv.2]> d) ∅ (zip fieldnames record))
        (drop (length record) fieldnames).

Definition DictReader (records : list (list string))
  : list (gmap string (option string)) :=
  match records with
  | [] => []
  | fieldnames :: rest =>
      DictReader_row fieldnames <$> filter (λ r, r ≠ []) rest
  end.

(** [row.get(key, "").strip()]: the default covers a missing key only; a
    key bound to [None] gives [None], which has no [strip]. *)
Definition get_stripped (row : gmap string (option string)) (key : string)
  : result string :=
  match row !! key with
  | None => Ok (Py.strip "")
  | Some (Some v) => Ok (Py.strip v)
  | Some None =>
      Raise (AttributeError "'NoneType' object has no attribute 'strip'")
  end.

Definition row_incomplete_message (line_no : nat) : string :=
  "Row " +:+ Py.str_int (Z.of_nat line_no) +:+ " incomplete – skipped".

(** The loop over [enumerate(reader, 1)]. *)
Fixpoint read_rows (rows : list (gmap string (option string)))
    (line_no : nat) (out : list host_row) : M (list host_row) :=
  match rows with
  | [] => ret out
  | row :: rows' =>
      let* h := lift (get_stripped row "hostname") in
      let* u := lift (get_stripped row "initial_admin_user") in
      let* p := lift (get_stripped row "initial_admin_password") in
      if Py.truthy h && Py.truthy u && Py.truthy p
      then read_rows rows' (S line_no) (out ++ [HostRow h u p])
      else log WARNING (row_incomplete_message line_no);;
           read_rows rows' (S line_no) out
  end.

Definition _read_csv (path : string) : M (list host_row) :=
  λ w,
    match fs w !! path with
    | None =>
        (log ERROR ("CSV file not found: " +:+ path);;
         raise (SystemExit 1)) w
    | Some text => read_rows (DictReader (csv_reader text)) 1 [] w
    end.

(** *** [_gen_records] (lines 187-244) *)

Definition folder_ref (shared_folder : string) : json :=
  JObj [("shared_folder", JStr shared_folder);
        ("can_edit", JBool true); ("can_share", JBool true)].

Definition pamUser (a : args) (tmp_uid : string) (row : host_row) : json :=
  JObj [("$type", JStr "pamUser");
        ("uid", JStr tmp_uid);
        ("title", JStr (hostname row +:+ " Local Admin"));
        ("login", JStr (user row));
        ("password", JStr (password row));
        ("folders", JArr [folder_ref (user_folder a)])].

Definition pamMachine (a : args) (port tmp_uid : string) (row : host_row)
  : json :=
  JObj [("$type", JStr "pamMachine");
        ("title", JStr (hostname row));
        ("login", JStr "stub");
        ("password", JStr "stub");
        ("folders", JArr [folder_ref (resource_folder a)]);
        ("custom_fields",
         JObj [("$pamSettings",
                JObj [("connection", JObj []); ("portForward", JObj [])]);
               ("$pamHostname",
                JObj [("hostName", JStr (hostname row)); ("port", JStr port)]);
               ("$checkbox:sslVerification",
                JBool (enable_ssl_verification a));
               ("operatingSystem", JStr (os a))]);
        ("links", JArr [JStr tmp_uid])].

(** [uuid.uuid4().hex] *)
Definition fresh_uid : M string :=
  λ w, (Ok (uuid4_hex (uuid_calls w)),
        World (fs w) (console w) (S (uuid_calls w))).

Definition duplicate_message (host : string) : string :=
  "Duplicate hostname " +:+ host +:+ " – skipped".

(** The loop over [rows], with the local variables [seen] and [recs]. *)
Fixpoint gen_loop (a : args) (port : string) (rows : list host_row)
    (seen : gset string) (recs : list json) : M (list json) :=
  match rows with
  | [] => ret recs
  | row :: rows' =>
      let host := hostname row in
      if decide (host ∈ seen)
      then log WARNING (duplicate_message host);;
           gen_loop a port rows' seen recs
      else let* tmp_uid := fresh_uid in
           gen_loop a port rows' ({[host]} ∪ seen)
             (recs ++ [pamUser a tmp_uid row; pamMachine a port tmp_uid row])
  end.

Definition _gen_records (rows : list host_row) (a : args) : M (list json) :=
  let* port := lift (default_port (protocol a)) in
  gen_loop a (Py.str_int port) rows ∅ [].

(** *** The writers (lines 252-357) *)

Definition NL : string := String "010" "".

Definition write_text (fpath content : string) : M unit :=
  λ w, (Ok (), World (<[fpath := content]> (fs w)) (console w) (uuid_calls w)).

Definition _write (fpath content : string) (dry : bool) : M unit :=
  if dry then log INFO ("[DRY‑RUN] Would write " +:+ fpath)
  else write_text fpath content;;
       log INFO ("Wrote " +:+ fpath).

Definition _cmdfile_header (title : string) : string :=
  "# ==== " +:+ title +:+ " generated " +:+ header_stamp title +:+ " ==="
  +:+ NL +:+ NL.

Definition import_document (records : list json) : json :=
  JObj [("shared_folders", JArr []); ("records", JArr records)].

Definition write_import_json (records : list json) (a : args) : M unit :=
  let wrapper := Json.dumps (import_document records) in
  _write "pam_records_import.json" wrapper (dry_run a).

Definition folder_move (a : args) (sf : string) : string :=
  "keeper folder move " +:+ DQ +:+ "/" +:+ sf +:+ DQ +:+ " " +:+ DQ +:+ "/"
  +:+ default "" (parent_folder a) +:+ "/" +:+ sf +:+ DQ.

Definition write_setup_commands (a : args) : M unit :=
  let cfg_title := "Config for " +:+ resource_folder a in
  let cfg_cmd :=
    "keeper pam config new --environment local --title " +:+ DQ +:+ cfg_title
    +:+ DQ +:+ " " +:+ "--shared-folder " +:+ DQ +:+ resource_folder a +:+ DQ
    +:+ " -g " +:+ gateway_uid a +:+ " " +:+ "--connections=on --rotation=on" in
  let lines :=
    [_cmdfile_header "SETUP";
     "keeper import pam_records_import.json --format json" +:+ NL;
     cfg_cmd +:+ NL]
    ++ (if opt_truthy (parent_folder a)
        then folder_move a <$> [user_folder a; resource_folder a]
        else []) in
  _write "pam_setup_commands.txt" (Py.join NL lines +:+ NL) (dry_run a).

(** The quoted paths of the command files. *)
Definition cfg_path (a : args) : string :=
  DQ +:+ "/" +:+ resource_folder a +:+ DQ.

Definition machine_path (a : args) (host : string) : string :=
  DQ +:+ "/" +:+ resource_folder a +:+ "/" +:+ host +:+ DQ.

Definition user_path (a : args) (host : string) : string :=
  DQ +:+ "/" +:+ user_folder a +:+ "/" +:+ host +:+ " Local Admin" +:+ DQ.

Definition connection_command (a : args) (port : Z) (host : string) : string :=
  "keeper pam connection edit " +:+ machine_path a host +:+ " --config "
  +:+ cfg_path a +:+ " " +:+ "--admin-user " +:+ user_path a host
  +:+ " --protocol " +:+ protocol a +:+ " "
  +:+ "--connections on --connections-override-port " +:+ Py.str_int port.

(** The loop of [write_connection_commands]: the port is looked up once per
    row. *)
Fixpoint connection_lines (a : args) (rows : list host_row)
  : result (list string) :=
  match rows with
  | [] => Ok []
  | row :: rows' =>
      match default_port (protocol a) with
      | Raise e => Raise e
      | Ok port =>
          match connection_lines a rows' with
          | Raise e => Raise e
          | Ok ls => Ok (connection_command a port (hostname row) :: ls)
          end
      end
  end.

Definition write_connection_commands (rows : list host_row) (a : args)
  : M unit :=
  let* ls := lift (connection_lines a rows) in
  let lines := _cmdfile_header "CONNECTIONS" :: ls in
  _write "pam_connection_commands.txt" (Py.join NL lines +:+ NL) (dry_run a).

(** [args.schedulejson.replace] of the single quote by the double quote. *)
Definition sched (a : args) : string :=
  Py.replace_char "'"%char Json.dq (schedulejson a).

Definition adm_flag (a : args) : string :=
  if opt_truthy (rotation_admin_uid a)
  then " --admin-user " +:+ default "" (rotation_admin_uid a)
  else "".

Definition rotation_command (a : args) (host : string) : string :=
  "keeper pam rotation set --record " +:+ user_path a host +:+ " --resource "
  +:+ machine_path a host +:+ " " +:+ "--config " +:+ cfg_path a
  +:+ " --enable" +:+ adm_flag a +:+ " -sj '" +:+ sched a +:+ "'".

Definition rotation_lines (a : args) (rows : list host_row) : list string :=
  (λ row, rotation_command a (hostname row)) <$> rows.

Definition write_rotation_commands (rows : list host_row) (a : args)
  : M unit :=
  let lines := _cmdfile_header "ROTATION" :: rotation_lines a rows in
  _write "pam_rotation_commands.txt" (Py.join NL lines +:+ NL) (dry_run a).

(** *** [main] (lines 365-388) *)

(** The loop over [as_completed(fut)].  [order] lists the indices of the
    submitted probes in the order in which they complete; [fut[f]] is the
    row the probe was submitted for; [f.result()] re-raises what the probe
    raised. *)
Fixpoint collect_reachable (rows : list host_row) (order : list nat)
    (ok : list host_row) : M (list host_row) :=
  match order with
  | [] => ret ok
  | i :: order' =>
      match rows !! i with
      | None => collect_reachable rows order' ok
      | Some r =>
          let* reachable :=
            lift (_probe (net i) (hostname r) _probe_port _probe_timeout) in
          if reachable : bool
          then collect_reachable rows order' (ok ++ [r])
          else log WARNING (hostname r +:+ " unreachable");;
               collect_reachable rows order' ok
      end
  end.

(** [ThreadPoolExecutor(max_workers=n)] refuses [n <= 0]. *)
Definition ThreadPoolExecutor (max_workers : Z) : M unit :=
  if (max_workers <=? 0)%Z
  then raise (ValueError "max_workers must be greater than 0")
  else ret ().

(** [main] after [parse_args]: [a] is the parsed command line and [order]
    the completion order of the probes. *)
Definition main (a : args) (order : list nat) : M unit :=
  let* rows := _read_csv (csv a) in
  let* rows :=
    if connectivity_check a
    then log INFO ("Running best‑effort TCP 5986 probe on "
                   +:+ Py.str_int (Z.of_nat (length rows)) +:+ " hosts");;
         ThreadPoolExecutor (threads a);;
         collect_reachable rows order []
    else ret rows in
  log INFO ("Processing " +:+ Py.str_int (Z.of_nat (length rows))
            +:+ " servers");;
  let* records := _gen_records rows a in
  write_import_json records a;;
  write_setup_commands a;;
  write_connection_commands rows a;;
  write_rotation_commands rows a.

(** A run of the script: the module is loaded, then [main] runs. *)
Definition run (a : args) (order : list nat) : M unit :=
  module_init;; main a order.

(** * Properties

    ** Vocabulary of the statements *)

Import Json.
Local Open Scope nat_scope.

(** The number of nodes of a value: a bound on the nesting the decoder
    meets. *)
Fixpoint json_size (v : json) : nat :=
  match v with
  | JArr xs =>
      S ((fix go (l : list json) : nat :=
            match l with [] => 0 | x :: l' => S (json_size x + go l') end) xs)
  | JObj ms =>
      S ((fix go (l : list (string * json)) : nat :=
            match l with
            | [] => 0
            | (_, x) :: l' => S (json_size x + go l')
            end) ms)
  | _ => 1
  end%nat.

(** No key occurs twice. *)
Fixpoint distinct (l : list string) : bool :=
  match l with
  | [] => true
  | k :: l' => negb (existsb (String.eqb k) l') && distinct l'
  end.

(** The values that are Python dictionaries all the way down: the keys of
    every object are distinct. *)
Fixpoint well_formed (v : json) : bool :=
  match v with
  | JArr xs => forallb well_formed xs
  | JObj ms =>
      distinct ms.*1 &&
      (fix go (l : list (string * json)) : bool :=
         match l with [] => true | (_, x) :: l' => well_formed x && go l' end) ms
  | _ => true
  end.

(** The text starts with the first character of an encoded value. *)
Definition value_start (s : string) : bool :=
  match s with
  | String c _ =>
      bool_decide (c ∈ [dq; "{"; "["; "n"; "t"; "f"]%char)
  | EmptyString => false
  end.

(** The rows of [rows] whose hostname occurs neither in [pre] nor earlier
    in [rows], in the order of [rows]. *)
Definition firsts_after (pre rows : list host_row) : list host_row :=
  omap id
    (imap (λ i r,
             if decide (hostname r ∈ hostname <$> (pre ++ take i rows))
             then None else Some r) rows).

(** The other rows: those that repeat a hostname of [pre] or of an earlier
    row. *)
Definition repeats_after (pre rows : list host_row) : list host_row :=
  omap id
    (imap (λ i r,
             if decide (hostname r ∈ hostname <$> (pre ++ take i rows))
             then Some r else None) rows).

(** The first row of every hostname, and the rows dropped as duplicates. *)
Definition first_rows (rows : list host_row) : list host_row :=
  firsts_after [] rows.

Definition repeated_rows (rows : list host_row) : list host_row :=
  repeats_after [] rows.

(** The distinct hostnames of a list of rows. *)
Definition hostnames (rows : list host_row) : gset string :=
  list_to_set (hostname <$> rows).

(** One credential record immediately followed by its machine record for
    each row, the n-th pair carrying the n-th identifier drawn. *)
Fixpoint record_pairs (a : args) (port : string) (n : nat)
    (rows : list host_row) : list json :=
  match rows with
  | [] => []
  | r :: rows' =>
      pamUser a (uuid4_hex n) r :: pamMachine a port (uuid4_hex n) r
      :: record_pairs a port (S n) rows'
  end.

Definition duplicate_warning (r : host_row) : log_record :=
  LogRecord WARNING (duplicate_message (hostname r)).

(** What a reader of the import document sees of a record. *)
Definition rec_type (r : json) : option json := json_get "$type" r.
Definition rec_title (r : json) : option json := json_get "title" r.
Definition rec_uid (r : json) : option json := json_get "uid" r.
Definition rec_links (r : json) : option json := json_get "links" r.

Definition rec_port (r : json) : option json :=
  match json_get "custom_fields" r with
  | Some cf =>
      match json_get "$pamHostname" cf with
      | Some h => json_get "port" h
      | None => None
      end
  | None => None
  end.

(** Two worlds hold the same files, the run log apart; the run log, once
    there, is still there. *)
Definition same_files_but_log (w w' : world) : Prop :=
  (∀ p, p ≠ log_path → fs w' !! p = fs w !! p)
  ∧ (is_Some (fs w !! log_path) → is_Some (fs w' !! log_path)).

(** The probe of the orchestrator for the i-th row: the defaults of
    [_probe] on the connection attempt of the i-th submitted call. *)
Definition probe_row (i : nat) (r : host_row) : result bool :=
  _probe (net i) (hostname r) _probe_port _probe_timeout.

Definition reachable (i : nat) (r : host_row) : bool :=
  match probe_row i r with Ok true => true | _ => false end.

(** The stable subsequence of the rows whose probe returned true. *)
Definition reachable_rows (rows : list host_row) : list host_row :=
  omap id (imap (λ i r, if reachable i r then Some r else None) rows).

(** The rows whose probe returned true, listed as their probes complete. *)
Definition reachable_as_completed (rows : list host_row) (order : list nat)
  : list host_row :=
  omap (λ i, match rows !! i with
             | Some r => if reachable i r then Some r else None
             | None => None
             end) order.

(** The rows whose probe returned false, listed as their probes complete. *)
Definition unreachable_as_completed (rows : list host_row) (order : list nat)
  : list host_row :=
  omap (λ i, match rows !! i with
             | Some r => if reachable i r then None else Some r
             | None => None
             end) order.

Definition unreachable_warning (r : host_row) : log_record :=
  LogRecord WARNING (hostname r +:+ " unreachable").

(** A computation that leaves every file but the run log as it found it,
    whatever it returns or raises. *)
Definition keeps_files {A} (m : M A) : Prop :=
  ∀ w, same_files_but_log w (m w).2.

(** The first half of [main]: the rows that reach the generator and the
    writers. *)
Definition load_rows (a : args) (order : list nat) : M (list host_row) :=
  let* rows := _read_csv (csv a) in
  let* rows :=
    if connectivity_check a
    then log INFO ("Running best‑effort TCP 5986 probe on "
                   +:+ Py.str_int (Z.of_nat (length rows)) +:+ " hosts");;
         ThreadPoolExecutor (threads a);;
         collect_reachable rows order []
    else ret rows in
  log INFO ("Processing " +:+ Py.str_int (Z.of_nat (length rows))
            +:+ " servers");;
  ret rows.

(** The second half of [main]. *)
Definition write_outputs (rows : list host_row) (a : args) : M unit :=
  let* records := _gen_records rows a in
  write_import_json records a;;
  write_setup_commands a;;
  write_connection_commands rows a;;
  write_rotation_commands rows a.

(** The CSV of the concrete scenario, as [csv.reader] yields it. *)
Definition scenario_records : list (list string) :=
  [["hostname"; "initial_admin_user"; "initial_admin_password"];
   ["web1"; "admin"; "Pw1!"];
   ["web1"; "admin"; "Pw2!"];
   ["db1"; ""; "Pw3!"];
   ["app1"; "root"; "Pw4!"]].

(** The connection commands of a row list, one per row. *)
Definition connection_commands (a : args) (port : Z) (rows : list host_row)
  : list string :=
  (λ r, connection_command a port (hostname r)) <$> rows.

(** The record is the machine record titled [h]. *)
Definition is_machine_for (h : string) (m : json) : bool :=
  match rec_type m, rec_title m with
  | Some (JStr t), Some (JStr s) => String.eqb t "pamMachine" && String.eqb s h
  | _, _ => false
  end.

(** [part] occurs in [s]. *)
Definition mentions (s part : string) : Prop :=
  ∃ before after, s = before +:+ part +:+ after.

(** The text of a column of a CSV row after trimming, a missing column
    counting as empty. *)
Definition stripped (row : gmap string (option string)) (key : string)
  : string :=
  match row !! key with
  | Some (Some v) => Py.strip v
  | _ => ""
  end.

(** The row binds none of the three columns to [None]: its record reaches
    each of the three columns the header has. *)
Definition has_all_fields (row : gmap string (option string)) : bool :=
  forallb (λ key, negb (bool_decide (row !! key = Some None)))
          ["hostname"; "initial_admin_user"; "initial_admin_password"].

(** The entry of a CSV row: present exactly when the three columns are
    non-empty after trimming. *)
Definition entry_of (row : gmap string (option string)) : option host_row :=
  let h := stripped row "hostname" in
  let u := stripped row "initial_admin_user" in
  let p := stripped row "initial_admin_password" in
  if bool_decide (h ≠ "" ∧ u ≠ "" ∧ p ≠ "") then Some (HostRow h u p)
  else None.

(** One warning per row without an entry, carrying the number of the row
    when the first row has the number [n]. *)
Definition incomplete_warnings (n : nat)
    (rows : list (gmap string (option string))) : list log_record :=
  omap id
    (imap (λ i row,
             match entry_of row with
             | None => Some (LogRecord WARNING (row_incomplete_message (n + i)))
             | Some _ => None
             end) rows).

(** The four files the writers produce. *)
Definition output_files : list string :=
  ["pam_records_import.json"; "pam_setup_commands.txt";
   "pam_connection_commands.txt"; "pam_rotation_commands.txt"].

(** Two worlds hold the same files, the [allowed] ones and the run log
    apart. *)
Definition same_files_except (allowed : list string) (w w' : world) : Prop :=
  ∀ p, p ∉ allowed → p ≠ log_path → fs w' !! p = fs w !! p.

(** A computation that changes no file but the [allowed] ones and the run
    log, whatever it returns or raises. *)
Definition touches_only {A} (allowed : list string) (m : M A) : Prop :=
  ∀ w, same_files_except allowed w (m w).2.

(** The identifiers of the credential records of a record list, and the
    identifiers the machine records link to, in order. *)
Definition user_uids (recs : list json) : list string :=
  omap (λ r, match rec_type r, rec_uid r with
             | Some (JStr "pamUser"), Some (JStr u) => Some u
             | _, _ => None
             end) recs.

Definition machine_links (recs : list json) : list string :=
  omap (λ r, match rec_type r, rec_links r with
             | Some (JStr "pamMachine"), Some (JArr [JStr u]) => Some u
             | _, _ => None
             end) recs.

(** The import document of an empty record list, as written. *)
Definition empty_import_text : string :=
  "{" +:+ NL +:+ "  " +:+ DQ +:+ "shared_folders" +:+ DQ +:+ ": []," +:+ NL
  +:+ "  " +:+ DQ +:+ "records" +:+ DQ +:+ ": []" +:+ NL +:+ "}".

(** The lines the file handler writes for the records [rs], the first of
    them being the n-th record of the run. *)
Fixpoint log_lines (n : nat) (rs : list log_record) : string :=
  match rs with
  | [] => ""
  | r :: rs' => format_record n r +:+ log_lines (S n) rs'
  end.

(** A computation whose effect on the run log is to append the line of
    every record it emits on the console, in order; a run log that exists
    stays. *)
Definition logs_in_step {A} (m : M A) : Prop :=
  ∀ w, ∃ new,
    console (m w).2 = console w ++ new
    ∧ default "" (fs (m w).2 !! log_path)
      = default "" (fs w !! log_path) +:+ log_lines (length (console w)) new
    ∧ (is_Some (fs w !! log_path) → is_Some (fs (m w).2 !! log_path)).



(** Propositional tactics must not pick the environment of the script up. *)
Ltac drop_env :=
  try clear net; try clear csv_reader; try clear uuid4_hex;
  try clear header_stamp; try clear asctime; try clear start_stamp.

(** ** Text *)

Section text_facts.
Implicit Types s t u : string.

Lemma str_app_nil_l s : "" +:+ s = s.
Proof. reflexivity. Qed.

Lemma str_app_cons c s t : String c s +:+ t = String c (s +:+ t).
Proof. reflexivity. Qed.

Lemma str_app_nil_r s : s +:+ "" = s.
Proof. induction s as [|c s IH]; [done|]. by rewrite str_app_cons, IH. Qed.

Lemma str_app_assoc s t u : (s +:+ t) +:+ u = s +:+ t +:+ u.
Proof. induction s as [|c s IH]; [done|]. by rewrite !str_app_cons, IH. Qed.

Lemma str_app_length s t :
  String.length (s +:+ t) = (String.length s + String.length t)%nat.
Proof.
  induction s as [|c s IH]; [done|]. rewrite str_app_cons. simpl. by rewrite IH.
Qed.
End text_facts.

Section json_induction.
Variable P : json → Prop.
Hypothesis Hnull : P JNull.
Hypothesis Hbool : ∀ b, P (JBool b).
Hypothesis Hstr : ∀ s, P (JStr s).
Hypothesis Harr : ∀ xs, Forall P xs → P (JArr xs).
Hypothesis Hobj : ∀ ms, Forall (λ m, P m.2) ms → P (JObj ms).

Fixpoint json_ind (v : json) : P v :=
  match v with
  | JNull => Hnull
  | JBool b => Hbool b
  | JStr s => Hstr s
  | JArr xs =>
      Harr xs ((fix go (l : list json) : Forall P l :=
                  match l with
                  | [] => Forall_nil_2 P
                  | x :: l' => Forall_cons_2 P x l' (json_ind x) (go l')
                  end) xs)
  | JObj ms =>
      Hobj ms ((fix go (l : list (string * json)) : Forall (λ m, P m.2) l :=
                  match l with
                  | [] => Forall_nil_2 _
                  | m :: l' => Forall_cons_2 _ m l' (json_ind m.2) (go l')
                  end) ms)
  end.
End json_induction.

Lemma scan_escape_char c t :
  scanstring (escape_char c +:+ t) = cons_char c (scanstring t).
Proof. destruct c as [[] [] [] [] [] [] [] []]; reflexivity. Qed.

Lemma scanstring_escape s rest :
  scanstring (escape s +:+ String dq rest) = Some (s, rest).
Proof.
  induction s as [|c s IH]; [done|].
  simpl. by rewrite str_app_assoc, scan_escape_char, IH.
Qed.

Lemma skip_ws_indent k s : skip_ws (indent k +:+ s) = skip_ws s.
Proof.
  induction k as [|k IH]; [done|].
  change (indent (S k)) with (String " " (String " " (indent k))).
  by rewrite !str_app_cons.
Qed.

Lemma skip_ws_newline_indent k s : skip_ws (newline_indent k +:+ s) = skip_ws s.
Proof. unfold newline_indent. rewrite str_app_cons. simpl. apply skip_ws_indent. Qed.

Lemma value_start_iterencode level v rest : value_start (iterencode level v +:+ rest) = true.
Proof.
  destruct v as [|[]|s|[|x xs]|[|[k x] ms]]; reflexivity.
Qed.

Lemma skip_ws_value s : value_start s = true → skip_ws s = s.
Proof.
  destruct s as [|c s]; [done|].
  destruct c as [[] [] [] [] [] [] [] []]; done.
Qed.

Lemma dict_set_fresh {V} k (v : V) acc :
  existsb (String.eqb k) acc.*1 = false → dict_set k v acc = acc ++ [(k, v)].
Proof.
  induction acc as [|[k' v'] acc IH]; [done|]. simpl.
  rewrite orb_false_iff. intros [Hk Hacc].
  rewrite String.eqb_sym, Hk. by rewrite IH.
Qed.

Lemma items_dispatch fuel s :
  value_start s = true →
  match s with
  | String "]"%char r => Some (JArr [], r)
  | _ => parse_items fuel s []
  end = parse_items fuel s [].
Proof.
  destruct s as [|c s]; [done|].
  destruct c as [[] [] [] [] [] [] [] []]; done.
Qed.

Lemma distinct_app_fresh l1 k l2 :
  distinct (l1 ++ k :: l2) = true → existsb (String.eqb k) l1 = false.
Proof.
  induction l1 as [|a l1 IH]; [done|]. simpl.
  rewrite andb_true_iff, negb_true_iff, existsb_app. simpl.
  rewrite !orb_false_iff. intros [(_ & Hak & _) Hd].
  by rewrite String.eqb_sym, Hak, IH.
Qed.

Lemma parse_items_encode level rest xs :
  Forall (λ v, ∀ fuel level rest, (json_size v ≤ fuel)%nat →
            scan_once fuel (iterencode level v +:+ rest) = Some (v, rest)) xs →
  ∀ x fuel acc,
    (∀ fuel level rest, (json_size x ≤ fuel)%nat →
            scan_once fuel (iterencode level x +:+ rest) = Some (x, rest)) →
    (json_size (JArr (x :: xs)) ≤ S fuel)%nat →
    parse_items fuel
      (iterencode (S level) x +:+ more_items (S level) xs
       +:+ newline_indent level +:+ String "]" rest) acc
    = Some (JArr (acc ++ x :: xs), rest).
Proof.
  induction 1 as [|y ys Hy _ IH]; intros x fuel acc Hx Hfuel.
  - destruct fuel as [|fuel]; [simpl in Hfuel; lia|].
    simpl. rewrite Hx by (simpl in Hfuel; lia).
    by rewrite str_app_nil_l, skip_ws_newline_indent.
  - destruct fuel as [|fuel]; [simpl in Hfuel; lia|].
    cbn [parse_items]. rewrite Hx by (simpl in Hfuel; lia).
    cbn [more_items]. rewrite !str_app_assoc, !str_app_cons. cbn [skip_ws is_ws].
    rewrite str_app_nil_l, skip_ws_newline_indent.
    rewrite skip_ws_value by apply value_start_iterencode.
    rewrite IH; [by rewrite <-(assoc_L (++)) | done | simpl in *; lia].
Qed.

Lemma parse_members_encode level rest ms :
  Forall (λ m, ∀ fuel level rest, (json_size m.2 ≤ fuel)%nat →
            scan_once fuel (iterencode level m.2 +:+ rest) = Some (m.2, rest)) ms →
  ∀ k x fuel acc,
    (∀ fuel level rest, (json_size x ≤ fuel)%nat →
            scan_once fuel (iterencode level x +:+ rest) = Some (x, rest)) →
    (json_size (JObj ((k, x) :: ms)) ≤ S fuel)%nat →
    distinct (acc ++ (k, x) :: ms).*1 = true →
    parse_members fuel
      (escape k +:+ String dq (": " +:+ iterencode (S level) x
       +:+ more_members (S level) ms
       +:+ newline_indent level +:+ String "}" rest)) acc
    = Some (JObj (acc ++ (k, x) :: ms), rest).
Proof.
  induction 1 as [|[k' y] ys Hy _ IH]; intros k x fuel acc Hx Hfuel Hd.
  - destruct fuel as [|fuel]; [simpl in Hfuel; lia|].
    cbn [parse_members]. rewrite scanstring_escape.
    rewrite !str_app_cons. cbn [skip_ws is_ws]. rewrite str_app_nil_l.
    rewrite skip_ws_value by apply value_start_iterencode.
    rewrite Hx by (simpl in Hfuel; lia).
    cbn [more_members].
    rewrite str_app_nil_l, skip_ws_newline_indent. cbn [skip_ws is_ws].
    rewrite dict_set_fresh; [done|].
    rewrite fmap_app in Hd. by apply distinct_app_fresh in Hd.
  - destruct fuel as [|fuel]; [simpl in Hfuel; lia|].
    cbn [parse_members]. rewrite scanstring_escape.
    rewrite !str_app_cons. cbn [skip_ws is_ws]. rewrite str_app_nil_l.
    rewrite skip_ws_value by apply value_start_iterencode.
    rewrite Hx by (simpl in Hfuel; lia).
    cbn [more_members]. rewrite !str_app_assoc, !str_app_cons.
    cbn [skip_ws is_ws].
    rewrite str_app_nil_l, skip_ws_newline_indent.
    unfold encode_string. rewrite !str_app_cons. cbn [skip_ws is_ws dq].
    rewrite !str_app_assoc, !str_app_cons, str_app_nil_l.
    rewrite dict_set_fresh
      by (rewrite fmap_app in Hd; by apply distinct_app_fresh in Hd).
    rewrite (IH k' y); [by rewrite <-(assoc_L (++)) | done | simpl in *; lia |].
    by rewrite <-(assoc_L (++)).
Qed.

Lemma well_formed_members ms :
  well_formed (JObj ms) = true →
  distinct ms.*1 = true ∧ Forall (λ m, well_formed m.2 = true) ms.
Proof.
  simpl. rewrite andb_true_iff. intros [Hd Hms]. split; [done|].
  clear Hd. induction ms as [|[k x] ms IH]; [done|].
  apply andb_true_iff in Hms as [Hx Hms]. constructor; auto.
Qed.

Lemma well_formed_items xs :
  well_formed (JArr xs) = true → Forall (λ x, well_formed x = true) xs.
Proof. simpl. rewrite forallb_forall, Forall_forall. intros H x Hx. apply H. by apply list_elem_of_In. Qed.

Lemma encode_arr level x xs :
  iterencode level (JArr (x :: xs)) =
    "[" +:+ newline_indent (S level) +:+ iterencode (S level) x
    +:+ more_items (S level) xs +:+ newline_indent level +:+ "]".
Proof.
  cbn [iterencode]. do 3 f_equal. f_equal.
  induction xs as [|y ys IH]; [done|]. cbn [more_items]. by rewrite IH.
Qed.

Lemma encode_obj level k x ms :
  iterencode level (JObj ((k, x) :: ms)) =
    "{" +:+ newline_indent (S level) +:+ encode_string k +:+ ": "
    +:+ iterencode (S level) x +:+ more_members (S level) ms
    +:+ newline_indent level +:+ "}".
Proof.
  cbn [iterencode]. do 5 f_equal. f_equal.
  induction ms as [|[k' y] ys IH]; [done|].
  cbn [more_members]. by rewrite IH.
Qed.

Lemma scan_once_encode v :
  well_formed v = true →
  ∀ fuel level rest, (json_size v ≤ fuel)%nat →
    scan_once fuel (iterencode level v +:+ rest) = Some (v, rest).
Proof.
  induction v as [|b|s|xs IH|ms IH] using json_ind;
    intros Hwf fuel level rest Hfuel;
    (destruct fuel as [|fuel]; [simpl in Hfuel; lia|]).
  - done.
  - by destruct b.
  - unfold iterencode, encode_string. rewrite !str_app_cons. cbn [scan_once dq].
    by rewrite str_app_assoc, str_app_cons, scanstring_escape.
  - destruct xs as [|x xs]; [done|].
    rewrite encode_arr. rewrite !str_app_cons, str_app_nil_l. cbn [scan_once]. cbv zeta.
    rewrite !str_app_assoc, skip_ws_newline_indent.
    rewrite skip_ws_value by apply value_start_iterencode.
    rewrite items_dispatch by apply value_start_iterencode.
    apply well_formed_items in Hwf.
    apply Forall_cons in IH as [IHx IH], Hwf as [Hx Hxs].
    rewrite str_app_cons, str_app_nil_l.
    apply (parse_items_encode level rest xs); [|by auto|done].
    apply Forall_forall. intros y Hy.
    rewrite Forall_forall in IH, Hxs. auto.
  - destruct ms as [|[k x] ms]; [done|].
    rewrite encode_obj. rewrite !str_app_cons, str_app_nil_l. cbn [scan_once].
    rewrite !str_app_assoc, skip_ws_newline_indent.
    unfold encode_string. rewrite !str_app_cons. cbn [skip_ws is_ws dq].
    apply well_formed_members in Hwf as [Hd Hwf].
    apply Forall_cons in IH as [IHx IH], Hwf as [Hx Hxs].
    rewrite !str_app_assoc, !str_app_cons, str_app_nil_l.
    apply (parse_members_encode level rest ms); [|by auto|done|done].
    apply Forall_forall. intros y Hy.
    rewrite Forall_forall in IH, Hxs. auto.
Qed.

Lemma json_size_encode v level : (json_size v ≤ String.length (iterencode level v))%nat.
Proof.
  revert level. induction v as [|b|s|xs IH|ms IH] using json_ind; intros level.
  - simpl; lia.
  - destruct b; simpl; lia.
  - simpl; lia.
  - destruct xs as [|x xs]; [simpl; lia|].
    rewrite encode_arr, !str_app_length.
    apply Forall_cons in IH as [IHx IH].
    assert (json_size (JArr xs) ≤ 1 + String.length (more_items (S level) xs))%nat.
    { clear IHx. induction IH as [|y ys Hy _ IHys]; [simpl; lia|].
      cbn [more_items]. rewrite !str_app_length.
      specialize (Hy (S level)). simpl in *. lia. }
    specialize (IHx (S level)). simpl in *. lia.
  - destruct ms as [|[k x] ms]; [simpl; lia|].
    rewrite encode_obj, !str_app_length.
    apply Forall_cons in IH as [IHx IH].
    assert (json_size (JObj ms) ≤ 1 + String.length (more_members (S level) ms))%nat.
    { clear IHx. induction IH as [|[k' y] ys Hy _ IHys]; [simpl; lia|].
      cbn [more_members]. rewrite !str_app_length.
      specialize (Hy (S level)). simpl in *. lia. }
    specialize (IHx (S level)). simpl in *. lia.
Qed.

Lemma loads_dumps v : well_formed v = true → loads (dumps v) = Some v.
Proof.
  intros Hwf. unfold loads, dumps.
  rewrite <-(str_app_nil_r (iterencode 0 v)) at 2.
  rewrite skip_ws_value by apply value_start_iterencode.
  rewrite str_app_nil_r.
  rewrite <-(str_app_nil_r (iterencode 0 v)) at 2.
  rewrite scan_once_encode; [done|done|].
  pose proof (json_size_encode v 0). lia.
Qed.

(** ** The record generator *)

Lemma firsts_after_cons pre r rs :
  firsts_after pre (r :: rs) =
    (if decide (hostname r ∈ hostname <$> pre) then [] else [r])
    ++ firsts_after (pre ++ [r]) rs.
Proof.
  unfold firsts_after. rewrite imap_cons. cbn [omap take]. rewrite app_nil_r.
  rewrite (imap_ext _
    (λ i r0, if decide (hostname r0 ∈ hostname <$> ((pre ++ [r]) ++ take i rs))
             then None else Some r0)).
  - by destruct (decide _).
  - intros i x _. simpl. by rewrite <-(assoc_L (++)).
Qed.

Lemma repeats_after_cons pre r rs :
  repeats_after pre (r :: rs) =
    (if decide (hostname r ∈ hostname <$> pre) then [r] else [])
    ++ repeats_after (pre ++ [r]) rs.
Proof.
  unfold repeats_after. rewrite imap_cons. cbn [omap take]. rewrite app_nil_r.
  rewrite (imap_ext _
    (λ i r0, if decide (hostname r0 ∈ hostname <$> ((pre ++ [r]) ++ take i rs))
             then Some r0 else None)).
  - by destruct (decide _).
  - intros i x _. simpl. by rewrite <-(assoc_L (++)).
Qed.

Lemma record_pairs_app a port n l1 l2 :
  record_pairs a port n (l1 ++ l2) =
    record_pairs a port n l1 ++ record_pairs a port (n + length l1) l2.
Proof.
  revert n. induction l1 as [|r l1 IH]; intros n; simpl.
  - by rewrite Nat.add_0_r.
  - rewrite IH. by rewrite Nat.add_succ_r.
Qed.

Lemma record_pairs_length a port n l :
  length (record_pairs a port n l) = 2 * length l.
Proof. revert n. induction l as [|r l IH]; intros n; simpl; [done|]. rewrite IH. lia. Qed.

Lemma hostnames_snoc pre r : {[hostname r]} ∪ hostnames pre = hostnames (pre ++ [r]).
Proof.
  unfold hostnames. rewrite fmap_app, list_to_set_app_L. simpl.
  rewrite union_empty_r_L. apply (comm_L (∪)).
Qed.

Lemma elem_of_hostnames h rows : h ∈ hostnames rows ↔ h ∈ hostname <$> rows.
Proof. unfold hostnames. by rewrite elem_of_list_to_set. Qed.

Lemma same_files_refl w : same_files_but_log w w.
Proof. by split. Qed.

Lemma same_files_trans w1 w2 w3 :
  same_files_but_log w1 w2 → same_files_but_log w2 w3 →
  same_files_but_log w1 w3.
Proof.
  intros [H12 L12] [H23 L23]. split; [|by auto].
  intros p Hp. by rewrite H23, H12.
Qed.

Lemma log_same_files l msg w : same_files_but_log w (log l msg w).2.
Proof.
  split; simpl; unfold append_text.
  - intros p Hp. by rewrite lookup_insert_ne.
  - intros _. by rewrite lookup_insert_eq.
Qed.

Lemma bind_log {B} l msg (k : unit → M B) w :
  bind (log l msg) k w = k () (log l msg w).2.
Proof. reflexivity. Qed.

Lemma log_console l msg w :
  console (log l msg w).2 = console w ++ [LogRecord l msg].
Proof. reflexivity. Qed.

Lemma log_uuid_calls l msg w : uuid_calls (log l msg w).2 = uuid_calls w.
Proof. reflexivity. Qed.

Lemma bind_fresh_uid {B} (k : string → M B) w :
  bind fresh_uid k w =
    k (uuid4_hex (uuid_calls w)) (World (fs w) (console w) (S (uuid_calls w))).
Proof. reflexivity. Qed.

Lemma gen_loop_spec a port suf :
  ∀ pre recs w,
    let out := gen_loop a port suf (hostnames pre) recs w in
    out.1 = Ok (recs ++ record_pairs a port (uuid_calls w)
                          (firsts_after pre suf))
    ∧ console out.2 = console w ++ (duplicate_warning <$> repeats_after pre suf)
    ∧ uuid_calls out.2 = uuid_calls w + length (firsts_after pre suf)
    ∧ same_files_but_log w out.2.
Proof.
  induction suf as [|r suf IH]; intros pre recs w.
  - simpl. rewrite !app_nil_r, Nat.add_0_r. auto using same_files_refl.
  - rewrite firsts_after_cons, repeats_after_cons. cbn [gen_loop].
    destruct (decide (hostname r ∈ hostnames pre)) as [Hin|Hnin].
    + rewrite !decide_True by by apply elem_of_hostnames.
      assert (hostnames pre = hostnames (pre ++ [r])) as ->.
      { rewrite <-hostnames_snoc. symmetry. apply subseteq_union_1_L.
        by apply singleton_subseteq_l. }
      rewrite bind_log.
      specialize (IH (pre ++ [r]) recs
        (log WARNING (duplicate_message (hostname r)) w).2)
        as (Hv & Hc & Hu & Hf).
      cbv zeta. rewrite Hv, Hc, Hu, log_console, log_uuid_calls.
      rewrite <-(assoc_L (++)).
      split_and!; try done.
      eapply same_files_trans; [|exact Hf]. apply log_same_files.
    + rewrite !decide_False by by rewrite <-elem_of_hostnames.
      rewrite hostnames_snoc, bind_fresh_uid.
      specialize (IH (pre ++ [r])
        (recs ++ [pamUser a (uuid4_hex (uuid_calls w)) r;
                  pamMachine a port (uuid4_hex (uuid_calls w)) r])
        (World (fs w) (console w) (S (uuid_calls w)))) as (Hv & Hc & Hu & Hf).
      cbv zeta. rewrite Hv, Hc, Hu. cbn [uuid_calls console record_pairs app length].
      rewrite <-(assoc_L (++)).
      split_and!; [done|done|lia|done].
Qed.

Lemma firsts_after_props pre suf :
  sublist (firsts_after pre suf) suf
  ∧ NoDup (hostname <$> firsts_after pre suf)
  ∧ ∀ h, h ∈ hostname <$> firsts_after pre suf
         ↔ (h ∈ hostname <$> suf) ∧ h ∉ hostname <$> pre.
Proof.
  revert pre. induction suf as [|r suf IH]; intros pre.
  - split_and!; [done|constructor|]. intros h. simpl.
    rewrite elem_of_nil. (drop_env; tauto).
  - rewrite firsts_after_cons.
    destruct (IH (pre ++ [r])) as (Hsub & Hnd & Hin).
    assert (∀ h, h ∈ hostname <$> firsts_after (pre ++ [r]) suf
                 ↔ h ∈ hostname <$> suf
                   ∧ (h ∉ hostname <$> pre) ∧ h ≠ hostname r) as Hin'.
    { intros h. rewrite Hin, fmap_app, elem_of_app. simpl.
      rewrite list_elem_of_singleton. (drop_env; tauto). }
    clear Hin. destruct (decide (hostname r ∈ hostname <$> pre)) as [Hr|Hr].
    + split_and!; [by apply sublist_cons|done|].
      intros h. simpl. rewrite Hin', elem_of_cons. split; [(drop_env; tauto)|].
      intros [[->|Hh] Hpre]; [done|]. split_and!; [done..|].
      by intros ->.
    + split_and!.
      * by apply sublist_skip.
      * simpl. apply NoDup_cons. split; [|done]. rewrite Hin'. (drop_env; tauto).
      * intros h. simpl. rewrite !elem_of_cons, Hin'.
        destruct (decide (h = hostname r)) as [->|]; (drop_env; tauto).
Qed.

Lemma first_rows_sublist rows : sublist (first_rows rows) rows.
Proof. apply firsts_after_props. Qed.

Lemma first_rows_NoDup rows : NoDup (hostname <$> first_rows rows).
Proof. apply firsts_after_props. Qed.

Lemma first_rows_hostnames rows : hostnames (first_rows rows) = hostnames rows.
Proof.
  apply set_eq. intros h. rewrite !elem_of_hostnames.
  unfold first_rows. rewrite (proj2 (proj2 (firsts_after_props [] rows))).
  simpl. rewrite elem_of_nil. (drop_env; tauto).
Qed.

Lemma first_rows_length rows : length (first_rows rows) = size (hostnames rows).
Proof.
  rewrite <-first_rows_hostnames. unfold hostnames.
  rewrite size_list_to_set by apply first_rows_NoDup.
  by rewrite length_fmap.
Qed.

(** A kept row is the first row of its hostname. *)
Lemma first_rows_first rows r :
  r ∈ first_rows rows →
  ∃ i, rows !! i = Some r
       ∧ ∀ j r', j < i → rows !! j = Some r' → hostname r' ≠ hostname r.
Proof.
  unfold first_rows, firsts_after. rewrite list_elem_of_omap.
  intros (o & Ho & Hid). simpl in Hid. subst o.
  apply elem_of_lookup_imap in Ho as (i & r0 & Hr & Hi).
  destruct (decide _) as [|Hnin]; [done|]. injection Hr as <-.
  exists i. split; [done|]. intros j r' Hj Hr' Heq. apply Hnin.
  simpl. rewrite <-Heq. apply list_elem_of_fmap. exists r'. split; [done|].
  apply list_elem_of_lookup. exists j. by rewrite lookup_take_lt.
Qed.

Lemma firsts_repeats_length pre suf :
  length (firsts_after pre suf) + length (repeats_after pre suf) = length suf.
Proof.
  revert pre. induction suf as [|r suf IH]; intros pre; [done|].
  rewrite firsts_after_cons, repeats_after_cons, !length_app.
  specialize (IH (pre ++ [r])). destruct (decide _); simpl; lia.
Qed.

(** ** The closed set of protocols *)

Lemma protocol_accepted_cases p :
  protocol_accepted p = true ↔
  p = "rdp" ∨ p = "ssh" ∨ p = "sql-server" ∨ p = "mysql" ∨ p = "postgresql".
Proof.
  unfold protocol_accepted, protocol_choices. rewrite bool_decide_eq_true.
  simpl. rewrite !elem_of_cons, elem_of_nil. (drop_env; tauto).
Qed.

Lemma default_port_accepted p :
  protocol_accepted p = true ↔ ∃ n, default_port p = Ok n.
Proof.
  rewrite protocol_accepted_cases. split.
  - intros [-> | [-> | [-> | [-> | ->]]]]; eexists; reflexivity.
  - intros [n Hn]. unfold default_port, _DEFAULT_PORTS in Hn.
    cbn [dict_get] in Hn.
    repeat match type of Hn with
           | context [String.eqb ?s p] =>
               destruct (String.eqb_spec s p) as [<-|?]; [(drop_env; tauto)|]
           end.
    done.
Qed.

Lemma gen_records_spec rows a w port :
  default_port (protocol a) = Ok port →
  let out := _gen_records rows a w in
  out.1 = Ok (record_pairs a (Py.str_int port) (uuid_calls w) (first_rows rows))
  ∧ console out.2 = console w ++ (duplicate_warning <$> repeated_rows rows)
  ∧ uuid_calls out.2 = uuid_calls w + length (first_rows rows)
  ∧ same_files_but_log w out.2.
Proof.
  intros Hport. unfold _gen_records, bind at 1, lift. rewrite Hport.
  apply (gen_loop_spec a (Py.str_int port) rows [] [] w).
Qed.

(** C1: for every list of loaded rows and every configuration whose
    protocol the command line accepts, [_gen_records] returns, in input
    order, one [pamUser] record immediately followed by its [pamMachine]
    record for exactly the rows that are the first of their hostname; every
    other row is skipped with one warning; so the number of pairs is the
    number of distinct hostnames (compared as exact strings), and the kept
    rows are a subsequence of the input. *)
Theorem gen_records_one_pair_per_hostname (rows : list host_row) (a : args)
    (w : world) :
  protocol_accepted (protocol a) = true →
  ∃ port,
    default_port (protocol a) = Ok port
    ∧ (_gen_records rows a w).1
      = Ok (record_pairs a (Py.str_int port) (uuid_calls w) (first_rows rows))
    ∧ console (_gen_records rows a w).2
      = console w ++ (duplicate_warning <$> repeated_rows rows)
    ∧ length (first_rows rows) = size (hostnames rows)
    ∧ length (first_rows rows) + length (repeated_rows rows) = length rows
    ∧ sublist (first_rows rows) rows
    ∧ NoDup (hostname <$> first_rows rows)
    ∧ ∀ r, r ∈ first_rows rows →
        ∃ i, rows !! i = Some r
             ∧ ∀ j r', j < i → rows !! j = Some r' → hostname r' ≠ hostname r.
Proof.
  intros Hp. apply default_port_accepted in Hp as [port Hport].
  exists port. destruct (gen_records_spec rows a w port Hport) as (Hv & Hc & _).
  split_and!; try done.
  - apply first_rows_length.
  - apply firsts_repeats_length.
  - apply first_rows_sublist.
  - apply first_rows_NoDup.
  - apply first_rows_first.
Qed.

Lemma gen_records_inv rows a w recs w' :
  _gen_records rows a w = (Ok recs, w') →
  ∃ port,
    default_port (protocol a) = Ok port
    ∧ recs = record_pairs a (Py.str_int port) (uuid_calls w) (first_rows rows).
Proof.
  intros Hgen. destruct (default_port (protocol a)) as [port|e] eqn:Hport.
  - exists port. split; [done|].
    destruct (gen_records_spec rows a w port Hport) as (Hv & _).
    rewrite Hgen in Hv. simpl in Hv. by injection Hv.
  - unfold _gen_records, bind, lift in Hgen. by rewrite Hport in Hgen.
Qed.

(** ** The import document *)

Lemma record_pairs_well_formed a port n rows :
  forallb well_formed (record_pairs a port n rows) = true.
Proof. revert n. induction rows as [|r rows IH]; intros n; [done|]. simpl. apply IH. Qed.

Lemma import_document_well_formed recs :
  forallb well_formed recs = true → well_formed (import_document recs) = true.
Proof. intros H. simpl. by rewrite H. Qed.

Lemma import_document_loads recs :
  forallb well_formed recs = true →
  loads (dumps (import_document recs)) = Some (import_document recs).
Proof. intros H. by apply loads_dumps, import_document_well_formed. Qed.

(** In the generator's output every machine record sits right after the
    credential record whose identifier is its only link. *)
Lemma record_pairs_links a port rows :
  ∀ n i m,
    record_pairs a port n rows !! i = Some m →
    rec_type m = Some (JStr "pamMachine") →
    ∃ u j p,
      rec_links m = Some (JArr [JStr u])
      ∧ i = S j
      ∧ record_pairs a port n rows !! j = Some p
      ∧ rec_type p = Some (JStr "pamUser")
      ∧ rec_uid p = Some (JStr u).
Proof.
  induction rows as [|r rows IH]; intros n i m Hi Hty; [done|].
  destruct i as [|[|i]]; simpl in Hi.
  - injection Hi as <-. done.
  - injection Hi as <-.
    exists (uuid4_hex n), 0, (pamUser a (uuid4_hex n) r). done.
  - destruct (IH _ _ _ Hi Hty) as (u & j & p & Hl & -> & Hj & Hp & Hu).
    exists u, (S (S j)), p. done.
Qed.

(** ** The write primitive *)

Lemma log_path_not_output suffix : log_path ≠ String "p" suffix.
Proof. unfold log_path. by rewrite !str_app_cons. Qed.

Lemma write_ok fpath content dry w : (_write fpath content dry w).1 = Ok ().
Proof. by destruct dry. Qed.

Lemma write_fs fpath content dry w :
  fpath ≠ log_path →
  fs (_write fpath content dry w).2 !! fpath
  = if dry then fs w !! fpath else Some content.
Proof.
  intros Hne. destruct dry; simpl; unfold append_text;
    rewrite lookup_insert_ne by done; [done|].
  by rewrite lookup_insert_eq.
Qed.

Lemma write_fs_other fpath content dry w p :
  p ≠ fpath → p ≠ log_path →
  fs (_write fpath content dry w).2 !! p = fs w !! p.
Proof.
  intros Hp Hlog. destruct dry; simpl; unfold append_text;
    rewrite lookup_insert_ne by done; [done|].
  by rewrite lookup_insert_ne.
Qed.

Lemma write_dry_same_files fpath content w :
  same_files_but_log w (_write fpath content true w).2.
Proof. apply log_same_files. Qed.

(** C2: the document [write_import_json] serialises for a generated record
    list parses to an object with exactly the keys [shared_folders], an
    empty array, and [records], an array; in that array the [links] of
    every [pamMachine] record hold exactly one identifier, the [uid] of the
    [pamUser] record right before it.  The text is what the writer puts in
    [pam_records_import.json] unless the run is dry. *)
Theorem import_json_keys_and_links (rows : list host_row) (a : args)
    (w w' : world) (recs : list json) :
  _gen_records rows a w = (Ok recs, w') →
  ∃ items,
    loads (dumps (import_document recs))
    = Some (JObj [("shared_folders", JArr []); ("records", JArr items)])
    ∧ (∀ i m,
         items !! i = Some m →
         rec_type m = Some (JStr "pamMachine") →
         ∃ u j p,
           rec_links m = Some (JArr [JStr u])
           ∧ i = S j
           ∧ items !! j = Some p
           ∧ rec_type p = Some (JStr "pamUser")
           ∧ rec_uid p = Some (JStr u))
    ∧ fs (write_import_json recs a w').2 !! "pam_records_import.json"
      = if dry_run a then fs w' !! "pam_records_import.json"
        else Some (dumps (import_document recs)).
Proof.
  intros Hgen. apply gen_records_inv in Hgen as (port & _ & ->).
  eexists. split_and!.
  - apply import_document_loads, record_pairs_well_formed.
  - apply record_pairs_links.
  - unfold write_import_json. apply write_fs.
    intros Heq. by apply (log_path_not_output "am_records_import.json").
Qed.

(** C9: serialising a generated record list into the import document and
    parsing the text back gives the same records: the same number of
    records, the same titles and the same links from machine records to
    credential identifiers. *)
Theorem import_json_round_trip (rows : list host_row) (a : args)
    (w w' : world) (recs : list json) :
  _gen_records rows a w = (Ok recs, w') →
  ∃ parsed items,
    loads (dumps (import_document recs)) = Some parsed
    ∧ json_get "records" parsed = Some (JArr items)
    ∧ length items = length recs
    ∧ rec_title <$> items = rec_title <$> recs
    ∧ rec_links <$> items = rec_links <$> recs
    ∧ rec_uid <$> items = rec_uid <$> recs
    ∧ items = recs.
Proof.
  intros Hgen. apply gen_records_inv in Hgen as (port & _ & ->).
  eexists _, _. split.
  { apply import_document_loads, record_pairs_well_formed. }
  split; [reflexivity|done].
Qed.

(** ** The rotation commands *)

Lemma replace_char_get old new s i :
  String.get i (Py.replace_char old new s)
  = (λ c, if Ascii.eqb c old then new else c) <$> String.get i s.
Proof.
  revert i. induction s as [|c s IH]; intros i; [done|].
  destruct i as [|i]; simpl; [done|]. apply IH.
Qed.

Lemma replace_char_absent old new s :
  old ≠ new → Py.contains_char old (Py.replace_char old new s) = false.
Proof.
  intros Hne. induction s as [|c s IH]; [done|]. simpl. rewrite IH.
  destruct (Ascii.eqb_spec c old) as [->|Hc].
  - rewrite orb_false_r. apply Ascii.eqb_neq. congruence.
  - rewrite orb_false_r. by apply Ascii.eqb_neq.
Qed.

(** C6: for every schedule string and every row list, each rotation command
    ends with [-sj '<schedule>'], where [<schedule>] is the input with every
    single quote replaced, character by character, by a double quote; the
    fragment between the quotes contains no single quote.  The command
    lines, after the header, are what the writer joins into
    [pam_rotation_commands.txt]. *)
Theorem rotation_commands_end_with_schedule (a : args)
    (rows : list host_row) (w : world) :
  Forall (λ line, Py.endswith line (" -sj '" +:+ sched a +:+ "'"))
         (rotation_lines a rows)
  ∧ length (rotation_lines a rows) = length rows
  ∧ (∀ i, String.get i (sched a)
          = (λ c, if Ascii.eqb c "'" then dq else c)
            <$> String.get i (schedulejson a))
  ∧ Py.contains_char "'" (sched a) = false
  ∧ fs (write_rotation_commands rows a w).2 !! "pam_rotation_commands.txt"
    = if dry_run a then fs w !! "pam_rotation_commands.txt"
      else Some (Py.join NL (_cmdfile_header "ROTATION" :: rotation_lines a rows)
                 +:+ NL).
Proof.
  split_and!.
  - apply Forall_fmap, Forall_forall. intros r _. simpl.
    unfold rotation_command.
    exists ("keeper pam rotation set --record " +:+ user_path a (hostname r)
            +:+ " --resource " +:+ machine_path a (hostname r) +:+ " "
            +:+ "--config " +:+ cfg_path a +:+ " --enable" +:+ adm_flag a).
    by rewrite !str_app_assoc.
  - unfold rotation_lines. by rewrite length_fmap.
  - intros i. apply replace_char_get.
  - by apply replace_char_absent.
  - unfold write_rotation_commands. apply write_fs.
    intros Heq. by apply (log_path_not_output "am_rotation_commands.txt").
Qed.

(** ** The reachability probe and the filter of [main] *)

Lemma probe_ok connect host port timeout :
  connect host port timeout = Ok () →
  _probe connect host port timeout = Ok true.
Proof. unfold _probe. by intros ->. Qed.

Lemma probe_oserror connect host port timeout e :
  connect host port timeout = Raise e → is_OSError e = true →
  _probe connect host port timeout = Ok false.
Proof. unfold _probe. by intros -> ->. Qed.

Lemma probe_other connect host port timeout e :
  connect host port timeout = Raise e → is_OSError e = false →
  _probe connect host port timeout = Raise e.
Proof. unfold _probe. by intros -> ->. Qed.

Lemma probe_row_total i r :
  (∀ j h e, net j h _probe_port _probe_timeout = Raise e → is_OSError e = true) →
  probe_row i r = Ok (reachable i r).
Proof.
  intros Hnet. unfold reachable, probe_row, _probe.
  destruct (net i (hostname r) _probe_port _probe_timeout) as [[]|e] eqn:He;
    [done|].
  by rewrite (Hnet _ _ _ He).
Qed.

Lemma bind_lift_ok {A B} (x : A) (k : A → M B) w :
  bind (lift (Ok x)) k w = k x w.
Proof. reflexivity. Qed.

Lemma bind_lift_raise {A B} e (k : A → M B) w :
  bind (lift (Raise e)) k w = (Raise e, w).
Proof. reflexivity. Qed.

Lemma reachable_as_completed_cons rows i order :
  reachable_as_completed rows (i :: order) =
    match rows !! i with
    | Some r => if reachable i r then [r] else []
    | None => []
    end ++ reachable_as_completed rows order.
Proof.
  unfold reachable_as_completed. simpl.
  destruct (rows !! i) as [r|]; [|done]. by destruct (reachable i r).
Qed.

Lemma unreachable_as_completed_cons rows i order :
  unreachable_as_completed rows (i :: order) =
    match rows !! i with
    | Some r => if reachable i r then [] else [r]
    | None => []
    end ++ unreachable_as_completed rows order.
Proof.
  unfold unreachable_as_completed. simpl.
  destruct (rows !! i) as [r|]; [|done]. by destruct (reachable i r).
Qed.

Lemma collect_reachable_spec rows order :
  (∀ j h e, net j h _probe_port _probe_timeout = Raise e → is_OSError e = true) →
  ∀ ok w,
    (collect_reachable rows order ok w).1
    = Ok (ok ++ reachable_as_completed rows order)
    ∧ console (collect_reachable rows order ok w).2
      = console w ++ (unreachable_warning <$> unreachable_as_completed rows order)
    ∧ uuid_calls (collect_reachable rows order ok w).2 = uuid_calls w.
Proof.
  intros Hnet. induction order as [|i order IH]; intros ok w.
  - simpl. by rewrite !app_nil_r.
  - rewrite reachable_as_completed_cons, unreachable_as_completed_cons.
    cbn [collect_reachable].
    destruct (rows !! i) as [r|] eqn:Hi; [|apply IH].
    fold (probe_row i r). rewrite (probe_row_total i r Hnet).
    rewrite !bind_lift_ok. destruct (reachable i r).
    + destruct (IH (ok ++ [r]) w) as (Hv & Hc & Hu).
      rewrite Hv, Hc, Hu. by rewrite <-(assoc_L (++)).
    + rewrite !bind_log.
      destruct (IH ok (log WARNING (hostname r +:+ " unreachable") w).2)
        as (Hv & Hc & Hu).
      rewrite Hv, Hc, Hu, log_console, log_uuid_calls.
      by rewrite <-(assoc_L (++)).
Qed.

Lemma omap_lookup_seq {A B} (g : nat → A → option B) (pre l : list A) :
  omap (λ i, match (pre ++ l) !! i with Some x => g i x | None => None end)
       (seq (length pre) (length l))
  = omap id (imap (λ i, g (length pre + i)) l).
Proof.
  revert pre. induction l as [|x l IH]; intros pre; [done|].
  cbn [length seq]. rewrite imap_cons. cbn [omap list_omap id].
  rewrite list_lookup_middle by done. rewrite Nat.add_0_r.
  specialize (IH (pre ++ [x])).
  rewrite length_app, Nat.add_1_r, <-(assoc_L (++)) in IH. simpl in IH.
  rewrite IH.
  rewrite (imap_ext (λ i, g (S (length pre + i)))
                    ((λ i, g (length pre + i)) ∘ S)); [done|].
  intros i y _. simpl. by rewrite Nat.add_succ_r.
Qed.

Lemma reachable_in_submission_order rows :
  reachable_as_completed rows (seq 0 (length rows)) = reachable_rows rows.
Proof.
  unfold reachable_as_completed, reachable_rows.
  apply (omap_lookup_seq (λ i r, if reachable i r then Some r else None)
           [] rows).
Qed.

Lemma reachable_permutation rows order :
  order ≡ₚ seq 0 (length rows) →
  reachable_as_completed rows order ≡ₚ reachable_rows rows.
Proof.
  intros Hperm. rewrite <-reachable_in_submission_order.
  unfold reachable_as_completed. by rewrite Hperm.
Qed.

Lemma omap_imap_sublist {A} (p : nat → A → bool) (l : list A) :
  sublist (omap id (imap (λ i x, if p i x then Some x else None) l)) l.
Proof.
  revert p. induction l as [|x l IH]; intros p; [done|].
  rewrite imap_cons. cbn [omap list_omap id].
  destruct (p 0 x).
  - apply sublist_skip, (IH (λ i, p (S i))).
  - apply sublist_cons, (IH (λ i, p (S i))).
Qed.

Lemma reachable_rows_sublist rows : sublist (reachable_rows rows) rows.
Proof. apply omap_imap_sublist. Qed.

(** C3 (amended): for every row list, every assignment of probe outcomes and
    every order in which the probes complete, the filtered list holds
    exactly the rows whose probe returned true, each once, in the order in
    which their probes completed: a permutation of the stable subsequence
    of the CSV-ordered rows, and that subsequence itself when the probes
    complete in the order of submission.  Each unreachable row is logged
    with one warning. *)
Theorem reachability_filter_follows_completion (rows : list host_row)
    (order : list nat) (w : world) :
  (∀ j h e, net j h _probe_port _probe_timeout = Raise e → is_OSError e = true) →
  order ≡ₚ seq 0 (length rows) →
  (collect_reachable rows order [] w).1
  = Ok (reachable_as_completed rows order)
  ∧ reachable_as_completed rows order ≡ₚ reachable_rows rows
  ∧ (order = seq 0 (length rows) →
     (collect_reachable rows order [] w).1 = Ok (reachable_rows rows))
  ∧ sublist (reachable_rows rows) rows
  ∧ console (collect_reachable rows order [] w).2
    = console w ++ (unreachable_warning <$> unreachable_as_completed rows order).
Proof.
  intros Hnet Hperm.
  destruct (collect_reachable_spec rows order Hnet [] w) as (Hv & Hc & _).
  split_and!; [done|by apply reachable_permutation| |  |done].
  - intros ->. by rewrite Hv, reachable_in_submission_order.
  - apply reachable_rows_sublist.
Qed.

(** ** What a dry run leaves on disk *)

Lemma keeps_ret {A} (x : A) : keeps_files (ret x).
Proof. intros w. apply same_files_refl. Qed.

Lemma keeps_raise {A} e : keeps_files (raise (A:=A) e).
Proof. intros w. apply same_files_refl. Qed.

Lemma keeps_lift {A} (r : result A) : keeps_files (lift r).
Proof. intros w. apply same_files_refl. Qed.

Lemma keeps_log l msg : keeps_files (log l msg).
Proof. intros w. apply log_same_files. Qed.

Lemma keeps_fresh_uid : keeps_files fresh_uid.
Proof. intros w. by split. Qed.

Lemma keeps_bind {A B} (m : M A) (k : A → M B) :
  keeps_files m → (∀ x, keeps_files (k x)) → keeps_files (bind m k).
Proof.
  intros Hm Hk w. unfold bind. specialize (Hm w).
  destruct (m w) as [[x|e] w1]; [|done].
  eapply same_files_trans; [exact Hm|apply Hk].
Qed.

Create HintDb keeps discriminated.
#[local] Hint Resolve keeps_ret keeps_raise keeps_lift keeps_log keeps_fresh_uid : keeps.

Ltac keeps_step :=
  repeat first
    [ solve [auto with keeps]
    | apply keeps_bind; [|intros ?]
    | match goal with |- keeps_files (if ?b then _ else _) => destruct b end ].

Lemma keeps_read_rows rows : ∀ line_no out, keeps_files (read_rows rows line_no out).
Proof using All.
  induction rows as [|row rows IH]; intros line_no out; simpl; keeps_step;
    apply IH.
Qed.

Lemma keeps_read_csv path : keeps_files (_read_csv path).
Proof using All.
  intros w. unfold _read_csv. destruct (fs w !! path) as [text|].
  - apply keeps_read_rows.
  - revert w. keeps_step.
Qed.

Lemma keeps_collect_reachable rows order :
  ∀ ok, keeps_files (collect_reachable rows order ok).
Proof using All.
  induction order as [|i order IH]; intros ok; simpl; [keeps_step|].
  destruct (rows !! i) as [r|]; [|apply IH]. keeps_step; apply IH.
Qed.

Lemma keeps_ThreadPoolExecutor n : keeps_files (ThreadPoolExecutor n).
Proof using All. unfold ThreadPoolExecutor. keeps_step. Qed.

Lemma keeps_gen_loop a port rows :
  ∀ seen recs, keeps_files (gen_loop a port rows seen recs).
Proof using All.
  induction rows as [|r rows IH]; intros seen recs; simpl; [keeps_step|].
  destruct (decide _); keeps_step; apply IH.
Qed.

Lemma keeps_gen_records rows a : keeps_files (_gen_records rows a).
Proof using All. unfold _gen_records. keeps_step. apply keeps_gen_loop. Qed.

Lemma keeps_write_dry fpath content : keeps_files (_write fpath content true).
Proof using All. intros w. apply write_dry_same_files. Qed.

#[local] Hint Resolve keeps_read_csv keeps_collect_reachable keeps_ThreadPoolExecutor
  keeps_gen_loop keeps_gen_records keeps_write_dry : keeps.

Lemma keeps_main_dry a order : dry_run a = true → keeps_files (main a order).
Proof using All.
  intros Hdry. unfold main, write_import_json, write_setup_commands,
    write_connection_commands, write_rotation_commands. rewrite Hdry.
  keeps_step.
Qed.

Lemma module_init_same_files w :
  same_files_but_log w (module_init w).2
  ∧ is_Some (fs (module_init w).2 !! log_path).
Proof.
  unfold module_init, open_append. simpl.
  destruct (fs w !! log_path) eqn:Hlog.
  - split; [by split|]. by rewrite Hlog.
  - split; [split|].
    + intros p Hp. simpl. by rewrite lookup_insert_ne.
    + by rewrite Hlog; intros [? ?].
    + simpl. by rewrite lookup_insert_eq.
Qed.

Lemma run_after_init a order w :
  run a order w = main a order (module_init w).2.
Proof. reflexivity. Qed.

(** C4 (amended): in a run with the dry-run flag set none of the four
    output files is written, overwritten or created, for every writer goes
    through [_write], which on a dry run logs its intent and leaves the
    files alone; the one file such a run creates or changes is the run log,
    which is opened when the module is loaded and receives every logged
    line. *)
Theorem dry_run_changes_only_the_run_log (a : args) (order : list nat)
    (w : world) :
  dry_run a = true →
  (∀ p, p ≠ log_path → fs (run a order w).2 !! p = fs w !! p)
  ∧ is_Some (fs (run a order w).2 !! log_path)
  ∧ (∀ fpath content w0,
       (_write fpath content true w0).1 = Ok ()
       ∧ console (_write fpath content true w0).2
         = console w0 ++ [LogRecord INFO ("[DRY‑RUN] Would write " +:+ fpath)]
       ∧ ∀ p, p ≠ log_path →
              fs (_write fpath content true w0).2 !! p = fs w0 !! p).
Proof.
  intros Hdry.
  destruct (module_init_same_files w) as [[Hinit _] Hlog].
  destruct (keeps_main_dry a order Hdry (module_init w).2) as [Hmain Hkeep].
  rewrite run_after_init. split_and!.
  - intros p Hp. by rewrite Hmain, Hinit.
  - by apply Hkeep.
  - intros fpath content w0. split_and!; [done..|].
    apply (write_dry_same_files fpath content w0).
Qed.

(** ** The concrete scenario and the port of a protocol *)

Lemma scenario_read path text w :
  csv_reader text = scenario_records → fs w !! path = Some text →
  (_read_csv path w).1
  = Ok [HostRow "web1" "admin" "Pw1!"; HostRow "web1" "admin" "Pw2!";
        HostRow "app1" "root" "Pw4!"]
  ∧ console (_read_csv path w).2
    = console w ++ [LogRecord WARNING (row_incomplete_message 3)]
  ∧ uuid_calls (_read_csv path w).2 = uuid_calls w.
Proof.
  intros Hreader Hfs. unfold _read_csv. rewrite Hfs, Hreader.
  split_and!; reflexivity.
Qed.

Lemma record_pairs_ports a port n rows :
  Forall (λ m, rec_type m = Some (JStr "pamMachine") →
               rec_port m = Some (JStr port))
         (record_pairs a port n rows).
Proof.
  revert n. induction rows as [|r rows IH]; intros n; simpl; [constructor|].
  constructor; [intros H; discriminate H|].
  constructor; [intros _; reflexivity|apply IH].
Qed.

Lemma gen_records_key_error rows a w :
  protocol_accepted (protocol a) = false →
  _gen_records rows a w = (Raise (KeyError (protocol a)), w).
Proof.
  intros Hp. unfold _gen_records.
  destruct (default_port (protocol a)) as [n|e] eqn:Hport.
  - assert (protocol_accepted (protocol a) = true) as Hacc
      by (apply default_port_accepted; eauto).
    congruence.
  - unfold default_port in Hport. destruct (dict_get _ _); [done|].
    injection Hport as <-. reflexivity.
Qed.

(** C7: on the CSV with the rows (web1,admin,Pw1!), (web1,admin,Pw2!),
    (db1,,Pw3!), (app1,root,Pw4!) and the protocol [mysql], the loader drops
    db1 as incomplete (row 3), the generator drops the second web1 row as a
    duplicate, and exactly two pairs come out, for web1 and app1, the
    machine record of app1 carrying the port ["3306"].  In general the
    command line accepts exactly the protocols rdp, ssh, sql-server, mysql
    and postgresql, with the ports 3389, 22, 1433, 3306 and 5432, every
    machine record carries the port of the configured protocol as a string,
    and any other protocol makes the generator raise [KeyError]. *)
Theorem scenario_two_pairs_and_default_ports (a : args) (text : string)
    (w : world) :
  csv_reader text = scenario_records →
  fs w !! csv a = Some text →
  protocol a = "mysql" →
  ((let* rows := _read_csv (csv a) in _gen_records rows a) w).1
  = Ok [pamUser a (uuid4_hex (uuid_calls w)) (HostRow "web1" "admin" "Pw1!");
        pamMachine a "3306" (uuid4_hex (uuid_calls w))
          (HostRow "web1" "admin" "Pw1!");
        pamUser a (uuid4_hex (S (uuid_calls w))) (HostRow "app1" "root" "Pw4!");
        pamMachine a "3306" (uuid4_hex (S (uuid_calls w)))
          (HostRow "app1" "root" "Pw4!")]
  ∧ console ((let* rows := _read_csv (csv a) in _gen_records rows a) w).2
    = console w ++ [LogRecord WARNING (row_incomplete_message 3);
                    LogRecord WARNING (duplicate_message "web1")]
  ∧ rec_port (pamMachine a "3306" (uuid4_hex (S (uuid_calls w)))
                (HostRow "app1" "root" "Pw4!"))
    = Some (JStr "3306")
  ∧ protocol_choices = ["rdp"; "ssh"; "sql-server"; "mysql"; "postgresql"]
  ∧ (∀ p, protocol_accepted p = true ↔ p ∈ protocol_choices)
  ∧ (default_port "rdp" = Ok 3389%Z ∧ default_port "ssh" = Ok 22%Z
     ∧ default_port "sql-server" = Ok 1433%Z ∧ default_port "mysql" = Ok 3306%Z
     ∧ default_port "postgresql" = Ok 5432%Z)
  ∧ (∀ rows' a' w' port,
       default_port (protocol a') = Ok port →
       ∃ recs, (_gen_records rows' a' w').1 = Ok recs
               ∧ Forall (λ m, rec_type m = Some (JStr "pamMachine") →
                              rec_port m = Some (JStr (Py.str_int port))) recs)
  ∧ (∀ rows' a' w',
       protocol_accepted (protocol a') = false →
       (_gen_records rows' a' w').1 = Raise (KeyError (protocol a'))).
Proof.
  intros Hreader Hfs Hproto.
  destruct (scenario_read (csv a) text w Hreader Hfs) as (Hv & Hc & Hu).
  assert (default_port (protocol a) = Ok 3306%Z) as Hport by by rewrite Hproto.
  split; [|split; [|split; [|split; [|split; [|split; [|split]]]]]].
  - unfold bind. destruct (_read_csv (csv a) w) as [[rows|e] w1]; [|done].
    simpl in Hv, Hu. injection Hv as ->.
    rewrite (proj1 (gen_records_spec _ a w1 _ Hport)). by rewrite Hu.
  - unfold bind. destruct (_read_csv (csv a) w) as [[rows|e] w1]; [|done].
    simpl in Hv, Hc. injection Hv as ->.
    rewrite (proj1 (proj2 (gen_records_spec _ a w1 _ Hport))), Hc.
    by rewrite <-(assoc_L (++)).
  - done.
  - done.
  - intros p. unfold protocol_accepted. apply bool_decide_eq_true.
  - by split_and!.
  - intros rows' a' w' port Hp. eexists. split.
    + apply (gen_records_spec rows' a' w' port Hp).
    + apply record_pairs_ports.
  - intros rows' a' w' Hp. by rewrite gen_records_key_error.
Qed.

(** ** The command files *)

Lemma bind_assoc {A B C} (m : M A) (k : A → M B) (k' : B → M C) w :
  bind (bind m k) k' w = bind m (λ x, bind (k x) k') w.
Proof. unfold bind. by destruct (m w) as [[x|e] w1]. Qed.

Lemma bind_ext {A B} (m : M A) (k k' : A → M B) w :
  (∀ x w1, k x w1 = k' x w1) → bind m k w = bind m k' w.
Proof. intros H. unfold bind. destruct (m w) as [[x|e] w1]; [apply H|done]. Qed.

Lemma main_phases a order w :
  main a order w = (let* rows := load_rows a order in write_outputs rows a) w.
Proof.
  unfold main, load_rows, write_outputs.
  rewrite bind_assoc. apply bind_ext. intros rows w1.
  rewrite bind_assoc. apply bind_ext. intros rows' w2.
  rewrite bind_assoc. apply bind_ext. intros [] w3.
  reflexivity.
Qed.

Lemma str_app_inv_length s1 s2 t1 t2 :
  String.length s1 = String.length s2 → s1 +:+ t1 = s2 +:+ t2 → s1 = s2.
Proof.
  revert s2. induction s1 as [|c s1 IH]; intros [|d s2] Hlen Heq;
    try done.
  rewrite !str_app_cons in Heq. injection Heq as -> Heq.
  f_equal. apply IH; [by injection Hlen|done].
Qed.

Lemma connection_command_inj a port h1 h2 :
  connection_command a port h1 = connection_command a port h2 → h1 = h2.
Proof.
  intros Heq.
  assert (String.length h1 = String.length h2) as Hlen.
  { apply (f_equal String.length) in Heq.
    unfold connection_command, machine_path, user_path in Heq.
    rewrite !str_app_length in Heq. lia. }
  unfold connection_command, machine_path in Heq.
  rewrite !str_app_assoc in Heq.
  do 5 apply (inj (String.append _)) in Heq.
  by apply str_app_inv_length in Heq.
Qed.

Lemma rotation_command_inj a h1 h2 :
  rotation_command a h1 = rotation_command a h2 → h1 = h2.
Proof.
  intros Heq.
  assert (String.length h1 = String.length h2) as Hlen.
  { apply (f_equal String.length) in Heq.
    unfold rotation_command, machine_path, user_path in Heq.
    rewrite !str_app_length in Heq. lia. }
  unfold rotation_command, user_path in Heq.
  rewrite !str_app_assoc in Heq.
  do 5 apply (inj (String.append _)) in Heq.
  by apply str_app_inv_length in Heq.
Qed.

Lemma count_fmap_inj {A} (f : A → string) (key : A → string)
    (g : string → string) (l : list A) h :
  (∀ h1 h2, g h1 = g h2 → h1 = h2) →
  (∀ x, f x = g (key x)) →
  length (filter (λ s, s = g h) (f <$> l))
  = length (filter (λ x, key x = h) l).
Proof.
  intros Hinj Hf. induction l as [|x l IH]; [done|].
  rewrite fmap_cons, !filter_cons, Hf.
  destruct (decide (key x = h)) as [->|Hne].
  - rewrite decide_True by done. simpl. by rewrite IH.
  - rewrite decide_False by (intros Heq; by apply Hne, Hinj). done.
Qed.

Lemma bind_ok_fst {A B} (m : M A) (k : A → M B) w x :
  (m w).1 = Ok x → bind m k w = k x (m w).2.
Proof. unfold bind. destruct (m w) as [r w1]. simpl. by intros ->. Qed.

Lemma connection_lines_ok a rows port :
  default_port (protocol a) = Ok port →
  connection_lines a rows = Ok (connection_commands a port rows).
Proof.
  intros Hport. induction rows as [|r rows IH]; [done|].
  simpl. by rewrite Hport, IH.
Qed.

Lemma output_not_log suffix : String "p" suffix ≠ log_path.
Proof. intros Heq. by apply (log_path_not_output suffix). Qed.

Lemma write_connection_commands_ok rows a w port :
  default_port (protocol a) = Ok port →
  write_connection_commands rows a w
  = _write "pam_connection_commands.txt"
      (Py.join NL (_cmdfile_header "CONNECTIONS"
                   :: connection_commands a port rows) +:+ NL)
      (dry_run a) w.
Proof.
  intros Hport. unfold write_connection_commands.
  by rewrite (connection_lines_ok a rows port Hport).
Qed.

Lemma write_outputs_spec rows a w port :
  default_port (protocol a) = Ok port →
  dry_run a = false →
  (write_outputs rows a w).1 = Ok ()
  ∧ fs (write_outputs rows a w).2 !! "pam_records_import.json"
    = Some (dumps (import_document
                     (record_pairs a (Py.str_int port) (uuid_calls w)
                        (first_rows rows))))
  ∧ fs (write_outputs rows a w).2 !! "pam_connection_commands.txt"
    = Some (Py.join NL (_cmdfile_header "CONNECTIONS"
                        :: connection_commands a port rows) +:+ NL)
  ∧ fs (write_outputs rows a w).2 !! "pam_rotation_commands.txt"
    = Some (Py.join NL (_cmdfile_header "ROTATION" :: rotation_lines a rows)
            +:+ NL).
Proof.
  intros Hport Hdry. unfold write_outputs.
  rewrite (bind_ok_fst _ _ _ _ (proj1 (gen_records_spec rows a w port Hport))).
  set (w1 := (_gen_records rows a w).2).
  unfold write_import_json, write_setup_commands, write_rotation_commands.
  rewrite Hdry.
  rewrite (bind_ok_fst _ _ _ _ (write_ok _ _ _ _)).
  rewrite (bind_ok_fst _ _ _ _ (write_ok _ _ _ _)).
  rewrite (bind_ok_fst (write_connection_commands rows a) _ _ ())
    by (rewrite (write_connection_commands_ok _ _ _ port Hport);
        apply write_ok).
  rewrite (write_connection_commands_ok _ _ _ port Hport), Hdry.
  split_and!.
  - apply write_ok.
  - rewrite !write_fs_other by (done || apply output_not_log).
    rewrite write_fs by apply output_not_log. done.
  - rewrite !write_fs_other by (done || apply output_not_log).
    rewrite write_fs by apply output_not_log. done.
  - rewrite write_fs by apply output_not_log. done.
Qed.

Lemma machine_count a port n rows h :
  length (filter (λ m, is_machine_for h m) (record_pairs a port n rows))
  = length (filter (λ r, hostname r = h) rows).
Proof.
  revert n. induction rows as [|r rows IH]; intros n; [done|].
  cbn [record_pairs]. rewrite !filter_cons.
  rewrite decide_False by (by intros ?).
  change (is_machine_for h (pamMachine a port (uuid4_hex n) r))
    with (String.eqb (hostname r) h).
  destruct (String.eqb_spec (hostname r) h) as [Heq|Hne].
  - rewrite !decide_True by done. simpl. by rewrite IH.
  - rewrite !decide_False by (done || by intros ?). apply IH.
Qed.

Lemma count_absent {A} (key : A → string) (l : list A) h :
  h ∉ key <$> l → length (filter (λ r, key r = h) l) = 0.
Proof.
  induction l as [|x l IH]; [done|]. rewrite fmap_cons, not_elem_of_cons.
  intros [Hx Hl]. rewrite filter_cons, decide_False by done. by apply IH.
Qed.

Lemma count_NoDup {A} (key : A → string) (l : list A) h :
  NoDup (key <$> l) → h ∈ key <$> l →
  length (filter (λ r, key r = h) l) = 1.
Proof.
  induction l as [|x l IH]; [by intros _ ?%elem_of_nil|].
  rewrite fmap_cons, NoDup_cons, elem_of_cons. intros [Hx Hnd] Hin.
  rewrite filter_cons. destruct (decide (key x = h)) as [<-|Hne].
  - simpl. by rewrite count_absent.
  - destruct Hin as [->|Hin]; [done|]. by apply IH.
Qed.

(** C10: the connection-command and rotation-command files hold, after
    the header, exactly one command per row of the list [main] hands to the
    writers (the loaded rows, filtered when the connectivity check is on),
    with no deduplication: a hostname that occurs k times in that list has k
    commands in each file, each naming its machine path, while the JSON
    document of the same run, generated from the same list, holds exactly
    one machine record for it. *)
Theorem command_files_keep_repeated_rows (a : args) (order : list nat)
    (w w1 : world) (rows : list host_row) (port : Z) :
  load_rows a order w = (Ok rows, w1) →
  default_port (protocol a) = Ok port →
  dry_run a = false →
  (main a order w).1 = Ok ()
  ∧ fs (main a order w).2 !! "pam_connection_commands.txt"
    = Some (Py.join NL (_cmdfile_header "CONNECTIONS"
                        :: connection_commands a port rows) +:+ NL)
  ∧ fs (main a order w).2 !! "pam_rotation_commands.txt"
    = Some (Py.join NL (_cmdfile_header "ROTATION" :: rotation_lines a rows)
            +:+ NL)
  ∧ length (connection_commands a port rows) = length rows
  ∧ length (rotation_lines a rows) = length rows
  ∧ (∀ h,
       length (filter (λ line, line = connection_command a port h)
                 (connection_commands a port rows))
       = length (filter (λ r, hostname r = h) rows)
       ∧ length (filter (λ line, line = rotation_command a h)
                   (rotation_lines a rows))
         = length (filter (λ r, hostname r = h) rows)
       ∧ mentions (connection_command a port h) (machine_path a h)
       ∧ mentions (rotation_command a h) (machine_path a h))
  ∧ ∃ recs,
      fs (main a order w).2 !! "pam_records_import.json"
      = Some (dumps (import_document recs))
      ∧ length recs = 2 * size (hostnames rows)
      ∧ ∀ h, h ∈ hostnames rows →
             length (filter (λ m, is_machine_for h m) recs) = 1.
Proof.
  intros Hload Hport Hdry.
  assert (main a order w = write_outputs rows a w1) as ->.
  { rewrite main_phases. unfold bind. by rewrite Hload. }
  destruct (write_outputs_spec rows a w1 port Hport Hdry)
    as (Hok & Hjson & Hconn & Hrot).
  split; [done|]. split; [done|]. split; [done|].
  split; [by unfold connection_commands; rewrite length_fmap|].
  split; [by unfold rotation_lines; rewrite length_fmap|].
  split.
  - intros h. split_and!.
    + apply (count_fmap_inj _ hostname (connection_command a port));
        [apply connection_command_inj|done].
    + apply (count_fmap_inj _ hostname (rotation_command a));
        [apply rotation_command_inj|done].
    + exists "keeper pam connection edit ". eexists.
      unfold connection_command. reflexivity.
    + exists ("keeper pam rotation set --record " +:+ user_path a h
              +:+ " --resource "). eexists.
      unfold rotation_command. by rewrite !str_app_assoc.
  - eexists. split; [exact Hjson|]. split.
    + by rewrite record_pairs_length, first_rows_length.
    + intros h Hh. rewrite machine_count. apply count_NoDup.
      * apply first_rows_NoDup.
      * apply elem_of_hostnames. by rewrite first_rows_hostnames.
Qed.

(** ** The loader *)

Lemma truthy_nonempty s : Py.truthy s = true ↔ s ≠ "".
Proof. by destruct s. Qed.

Lemma get_stripped_ok row key :
  row !! key ≠ Some None → get_stripped row key = Ok (stripped row key).
Proof.
  unfold get_stripped, stripped. by destruct (row !! key) as [[v|]|].
Qed.

Lemma has_all_fields_lookup row key :
  has_all_fields row = true →
  key ∈ ["hostname"; "initial_admin_user"; "initial_admin_password"] →
  row !! key ≠ Some None.
Proof.
  unfold has_all_fields. rewrite forallb_forall. intros Hall Hkey.
  specialize (Hall key). rewrite negb_true_iff, bool_decide_eq_false in Hall.
  apply Hall. by apply list_elem_of_In.
Qed.

Lemma incomplete_warnings_cons n row rows :
  incomplete_warnings n (row :: rows) =
    match entry_of row with
    | None => [LogRecord WARNING (row_incomplete_message n)]
    | Some _ => []
    end ++ incomplete_warnings (S n) rows.
Proof.
  unfold incomplete_warnings. rewrite imap_cons. cbn [omap list_omap id].
  rewrite Nat.add_0_r.
  rewrite (imap_ext _ (λ i row0,
             match entry_of row0 with
             | None => Some (LogRecord WARNING (row_incomplete_message (S n + i)))
             | Some _ => None
             end)).
  - by destruct (entry_of row).
  - intros i x _. simpl. by rewrite Nat.add_succ_r.
Qed.

Lemma read_rows_spec rows :
  forallb has_all_fields rows = true →
  ∀ n out w,
    (read_rows rows n out w).1 = Ok (out ++ omap entry_of rows)
    ∧ console (read_rows rows n out w).2
      = console w ++ incomplete_warnings n rows.
Proof.
  induction rows as [|row rows IH]; intros Hall n out w.
  - simpl. by rewrite !app_nil_r.
  - apply andb_true_iff in Hall as [Hrow Hall].
    rewrite incomplete_warnings_cons. cbn [read_rows omap list_omap].
    rewrite !get_stripped_ok, !bind_lift_ok
      by (apply has_all_fields_lookup; [done|];
          repeat first [apply list_elem_of_here|apply list_elem_of_further]).
    unfold entry_of.
    destruct (Py.truthy (stripped row "hostname")) eqn:Hh;
      [destruct (Py.truthy (stripped row "initial_admin_user")) eqn:Hu;
       [destruct (Py.truthy (stripped row "initial_admin_password")) eqn:Hp|]|];
      cbn [andb].
    + rewrite bool_decide_eq_true_2
        by (split_and!; by apply truthy_nonempty).
      destruct (IH Hall (S n) (out ++ [HostRow (stripped row "hostname")
                                         (stripped row "initial_admin_user")
                                         (stripped row "initial_admin_password")])
                  w) as [Hv Hc].
      rewrite Hv, Hc. by rewrite <-(assoc_L (++)).
    + rewrite bool_decide_eq_false_2
        by (intros (_ & _ & ?%truthy_nonempty); congruence).
      rewrite bind_log. destruct (IH Hall (S n) out
        (log WARNING (row_incomplete_message n) w).2) as [Hv Hc].
      rewrite Hv, Hc, log_console. by rewrite <-(assoc_L (++)).
    + rewrite bool_decide_eq_false_2
        by (intros (_ & ?%truthy_nonempty & _); congruence).
      rewrite bind_log. destruct (IH Hall (S n) out
        (log WARNING (row_incomplete_message n) w).2) as [Hv Hc].
      rewrite Hv, Hc, log_console. by rewrite <-(assoc_L (++)).
    + rewrite bool_decide_eq_false_2
        by (intros (?%truthy_nonempty & _ & _); congruence).
      rewrite bind_log. destruct (IH Hall (S n) out
        (log WARNING (row_incomplete_message n) w).2) as [Hv Hc].
      rewrite Hv, Hc, log_console. by rewrite <-(assoc_L (++)).
Qed.

Lemma read_rows_no_exit rows :
  ∀ n out w code, (read_rows rows n out w).1 ≠ Raise (SystemExit code).
Proof.
  induction rows as [|row rows IH]; intros n out w code; [done|].
  cbn [read_rows]. unfold get_stripped.
  destruct (row !! "hostname") as [[h|]|]; [|done|];
    (destruct (row !! "initial_admin_user") as [[u|]|]; [|done|]);
    (destruct (row !! "initial_admin_password") as [[p|]|]; [|done|]);
    rewrite !bind_lift_ok;
    (destruct (_ && _); [apply IH|rewrite bind_log; apply IH]).
Qed.

(** The loader on rows that reach all three columns: it exits with code 1
    exactly when the path does not exist; otherwise it returns, in CSV
    order, the entries of the rows whose three columns are non-empty after
    trimming, and logs for each other row one warning with its 1-based
    number. *)
Theorem read_csv_keeps_complete_rows (path text : string) (w : world) :
  fs w !! path = Some text →
  forallb has_all_fields (DictReader (csv_reader text)) = true →
  (_read_csv path w).1 = Ok (omap entry_of (DictReader (csv_reader text)))
  ∧ console (_read_csv path w).2
    = console w ++ incomplete_warnings 1 (DictReader (csv_reader text))
  ∧ ∀ path' w',
      (_read_csv path' w').1 = Raise (SystemExit 1) ↔ fs w' !! path' = None.
Proof.
  intros Hfs Hall. split_and!.
  - unfold _read_csv. rewrite Hfs.
    apply (read_rows_spec _ Hall 1 [] w).
  - unfold _read_csv. rewrite Hfs.
    apply (read_rows_spec _ Hall 1 [] w).
  - intros path' w'. unfold _read_csv.
    destruct (fs w' !! path') as [text'|]; [|done].
    split; [|done]. intros H. by apply read_rows_no_exit in H.
Qed.

(** ** More on the loader: what every loaded entry satisfies *)

Lemma rstrip_idempotent s : Py.rstrip (Py.rstrip s) = Py.rstrip s.
Proof.
  induction s as [|c s IH]; [done|]. cbn [Py.rstrip].
  destruct (Py.rstrip s) as [|d r] eqn:Hr.
  - destruct (Py.isspace c) eqn:Hc; [done|]. cbn [Py.rstrip]. by rewrite Hc.
  - change (Py.rstrip (String c (String d r)))
      with (match Py.rstrip (String d r) with
            | EmptyString =>
                if Py.isspace c then EmptyString else String c EmptyString
            | r' => String c r'
            end).
    by rewrite IH.
Qed.

Lemma lstrip_rstrip_lstrip s :
  Py.lstrip (Py.rstrip (Py.lstrip s)) = Py.rstrip (Py.lstrip s).
Proof.
  induction s as [|c s IH]; [done|]. cbn [Py.lstrip].
  destruct (Py.isspace c) eqn:Hc; [done|].
  cbn [Py.rstrip]. destruct (Py.rstrip s) as [|d r]; rewrite ?Hc;
    cbn [Py.lstrip]; by rewrite Hc.
Qed.

Lemma strip_idempotent s : Py.strip (Py.strip s) = Py.strip s.
Proof.
  unfold Py.strip. by rewrite lstrip_rstrip_lstrip, rstrip_idempotent.
Qed.

Lemma get_stripped_trimmed row key v :
  get_stripped row key = Ok v → Py.strip v = v.
Proof.
  unfold get_stripped. destruct (row !! key) as [[x|]|]; intros [= <-];
    [apply strip_idempotent|done].
Qed.

Lemma read_rows_entries (P : host_row → Prop) rows :
  (∀ h u p, Py.strip h = h → Py.strip u = u → Py.strip p = p →
            h ≠ "" → u ≠ "" → p ≠ "" → P (HostRow h u p)) →
  ∀ n out w loaded,
    Forall P out →
    (read_rows rows n out w).1 = Ok loaded → Forall P loaded.
Proof.
  intros HP. induction rows as [|row rows IH]; intros n out w loaded Hout.
  - simpl. by intros [= <-].
  - cbn [read_rows].
    destruct (get_stripped row "hostname") as [h|e] eqn:Hh; [|done].
    destruct (get_stripped row "initial_admin_user") as [u|e] eqn:Hu; [|done].
    destruct (get_stripped row "initial_admin_password") as [p|e] eqn:Hp;
      [|done].
    rewrite !bind_lift_ok.
    destruct (Py.truthy h) eqn:Th; [destruct (Py.truthy u) eqn:Tu;
      [destruct (Py.truthy p) eqn:Tp|]|]; cbn [andb];
      try (rewrite bind_log; by apply IH).
    apply IH. apply Forall_app. split; [done|]. constructor; [|done].
    apply HP; eauto using get_stripped_trimmed; by apply truthy_nonempty.
Qed.

(** Every entry the loader returns has a hostname, a user and a password
    that are non-empty and carry no surrounding whitespace, whatever the
    file holds. *)
Theorem read_csv_entries_are_trimmed_and_nonempty (path : string) (w : world)
    (loaded : list host_row) :
  (_read_csv path w).1 = Ok loaded →
  Forall (λ r, hostname r ≠ "" ∧ user r ≠ "" ∧ password r ≠ ""
               ∧ Py.strip (hostname r) = hostname r
               ∧ Py.strip (user r) = user r
               ∧ Py.strip (password r) = password r) loaded.
Proof.
  unfold _read_csv. destruct (fs w !! path) as [text|]; [|done].
  apply read_rows_entries; [|constructor].
  intros h u p ??????. simpl. by split_and!.
Qed.

Lemma foldl_insert_lookup_ne {B} (f : B → string) (g : B → option string)
    (l : list B) (d : gmap string (option string)) key :
  key ∉ f <$> l →
  foldl (λ d x, <[f x := g x]> d) d l !! key = d !! key.
Proof.
  revert d. induction l as [|x l IH]; intros d; [done|].
  rewrite fmap_cons, not_elem_of_cons. intros [Hx Hl]. simpl.
  rewrite IH by done. by rewrite lookup_insert_ne.
Qed.

(** A column the header does not name is missing from every row. *)
Lemma DictReader_row_lookup_absent fieldnames record key :
  key ∉ fieldnames → DictReader_row fieldnames record !! key = None.
Proof.
  intros Hkey. unfold DictReader_row.
  rewrite (foldl_insert_lookup_ne id (λ _, None)).
  - rewrite (foldl_insert_lookup_ne fst (λ kv, Some kv.2)); [done|].
    intros ([k v] & -> & Hin)%list_elem_of_fmap. simpl in Hkey.
    by apply elem_of_zip_l in Hin.
  - rewrite list_fmap_id. intros Hin. by apply subseteq_drop in Hin.
Qed.

Lemma entry_of_absent_column row key :
  key ∈ ["hostname"; "initial_admin_user"; "initial_admin_password"] →
  row !! key = None → entry_of row = None.
Proof.
  intros Hkey Hrow. unfold entry_of. cbv zeta.
  rewrite bool_decide_eq_false_2; [done|].
  intros (Hh & Hu & Hp). unfold stripped in Hh, Hu, Hp.
  repeat (apply elem_of_cons in Hkey as [->|Hkey];
          [by rewrite Hrow in *|]).
  by apply elem_of_nil in Hkey.
Qed.

Lemma incomplete_warnings_all n rows :
  Forall (λ row, entry_of row = None) rows →
  incomplete_warnings n rows
  = (λ i, LogRecord WARNING (row_incomplete_message i))
    <$> seq n (length rows)
  ∧ omap entry_of rows = [].
Proof.
  intros Hall. revert n. induction Hall as [|row rows Hrow _ IH]; intros n;
    [done|].
  rewrite incomplete_warnings_cons. cbn [omap list_omap length seq fmap list_fmap].
  rewrite Hrow. destruct (IH (S n)) as [-> ->]. done.
Qed.

(** When the header of the CSV lacks one of the three columns, no row can
    be complete: the loader returns no entry and logs one warning per data
    row, numbered from 1. *)
Theorem read_csv_header_without_column (path text : string)
    (fieldnames : list string) (records : list (list string)) (key : string)
    (w : world) :
  fs w !! path = Some text →
  csv_reader text = fieldnames :: records →
  key ∈ ["hostname"; "initial_admin_user"; "initial_admin_password"] →
  key ∉ fieldnames →
  forallb has_all_fields (DictReader (fieldnames :: records)) = true →
  (_read_csv path w).1 = Ok []
  ∧ console (_read_csv path w).2
    = console w
      ++ ((λ i, LogRecord WARNING (row_incomplete_message i))
          <$> seq 1 (length (filter (λ r, r ≠ []) records))).
Proof.
  intros Hfs Hreader Hkey Habsent Hall.
  unfold _read_csv. rewrite Hfs, Hreader.
  destruct (read_rows_spec _ Hall 1 [] w) as [Hv Hc].
  destruct (incomplete_warnings_all 1 (DictReader (fieldnames :: records)))
    as [Hwarn Hnone].
  { cbn [DictReader]. apply Forall_fmap, Forall_forall. intros record _.
    simpl. apply (entry_of_absent_column _ key); [done|].
    by apply DictReader_row_lookup_absent. }
  rewrite Hv, Hc, Hwarn, Hnone. cbn [DictReader].
  by rewrite length_fmap.
Qed.

(** ** Which files a run can change *)

Lemma keeps_load_rows a order : keeps_files (load_rows a order).
Proof using All. unfold load_rows. keeps_step. Qed.

Lemma touches_keeps {A} allowed (m : M A) :
  keeps_files m → touches_only allowed m.
Proof. intros Hm w p _ Hp. by apply Hm. Qed.

Lemma touches_bind {A B} allowed (m : M A) (k : A → M B) :
  touches_only allowed m → (∀ x, touches_only allowed (k x)) →
  touches_only allowed (bind m k).
Proof.
  intros Hm Hk w p Hp Hlog. unfold bind. specialize (Hm w).
  destruct (m w) as [[x|e] w1]; [|by apply Hm].
  rewrite (Hk x w1 p Hp Hlog). by apply Hm.
Qed.

Lemma touches_write allowed fpath content dry :
  fpath ∈ allowed → touches_only allowed (_write fpath content dry).
Proof.
  intros Hin w p Hp Hlog. apply write_fs_other; [|done].
  intros ->. by apply Hp.
Qed.

Lemma touches_write_outputs rows a :
  touches_only output_files (write_outputs rows a).
Proof using All.
  unfold write_outputs, write_import_json, write_setup_commands,
    write_connection_commands, write_rotation_commands.
  repeat first
    [ apply touches_write; unfold output_files;
      repeat first [apply list_elem_of_here|apply list_elem_of_further]
    | apply touches_keeps; solve [auto with keeps]
    | apply touches_bind; [|intros ?] ].
Qed.

Lemma touches_main a order : touches_only output_files (main a order).
Proof using All.
  intros w. rewrite main_phases. revert w.
  apply touches_bind; [|intros rows; apply touches_write_outputs].
  apply touches_keeps, keeps_load_rows.
Qed.

(** A run changes no file other than its four output files and the run
    log, in either mode and whether it ends normally or with an exception;
    a CSV under another name is read and never modified. *)
Theorem run_changes_only_outputs_and_log (a : args) (order : list nat)
    (w : world) (p : string) :
  p ∉ output_files → p ≠ log_path →
  fs (run a order w).2 !! p = fs w !! p.
Proof using All.
  intros Hp Hlog. rewrite run_after_init.
  rewrite (touches_main a order (module_init w).2 p Hp Hlog).
  by apply (module_init_same_files w).
Qed.

(** When the first half of [main] raises (the CSV is missing, a short row
    breaks the loader, the worker pool is refused, or a probe raises
    something that is not an [OSError]), [main] raises the same exception
    before the generator and the writers run, and no output file is
    written; in particular a missing CSV ends the run with exit code 1 and
    a refused pool with [ValueError]. *)
Theorem main_load_failure_writes_nothing (a : args) (order : list nat)
    (w : world) (e : exn) :
  (load_rows a order w).1 = Raise e →
  (main a order w).1 = Raise e
  ∧ (∀ p, p ≠ log_path → fs (main a order w).2 !! p = fs w !! p)
  ∧ (fs w !! csv a = None → e = SystemExit 1)
  ∧ (∀ rows, (_read_csv (csv a) w).1 = Ok rows →
             connectivity_check a = true → (threads a <= 0)%Z →
             e = ValueError "max_workers must be greater than 0").
Proof using All.
  intros Hload.
  assert (main a order w = (Raise e, (load_rows a order w).2)) as Hmain.
  { rewrite main_phases. unfold bind.
    destruct (load_rows a order w) as [[rows|e'] w1]; [done|].
    simpl in Hload. by injection Hload as ->. }
  rewrite Hmain. split_and!; [done| | |].
  - intros p Hp. by apply (keeps_load_rows a order w).
  - intros Hnone. unfold load_rows, bind, _read_csv in Hload.
    rewrite Hnone in Hload. simpl in Hload. by injection Hload as <-.
  - intros rows Hread Hcc Hthreads. unfold load_rows in Hload.
    rewrite (bind_ok_fst _ _ _ _ Hread), Hcc in Hload.
    rewrite bind_assoc, bind_log, bind_assoc in Hload.
    unfold ThreadPoolExecutor in Hload.
    rewrite (proj2 (Z.leb_le _ _) Hthreads) in Hload.
    simpl in Hload. by injection Hload as <-.
Qed.

(** A protocol outside the table makes [main] raise [KeyError] in the
    generator, after the rows are loaded and before any writer runs: no
    output file is written. *)
Theorem main_unknown_protocol_writes_nothing (a : args) (order : list nat)
    (w w1 : world) (rows : list host_row) :
  load_rows a order w = (Ok rows, w1) →
  protocol_accepted (protocol a) = false →
  (main a order w).1 = Raise (KeyError (protocol a))
  ∧ ∀ p, p ≠ log_path → fs (main a order w).2 !! p = fs w !! p.
Proof using All.
  intros Hload Hproto.
  assert (main a order w = (Raise (KeyError (protocol a)), w1)) as ->.
  { rewrite main_phases. unfold bind at 1. rewrite Hload.
    unfold write_outputs, bind at 1.
    by rewrite (gen_records_key_error rows a w1 Hproto). }
  split; [done|]. intros p Hp.
  pose proof (keeps_load_rows a order w) as [Hkeep _].
  rewrite Hload in Hkeep. by apply Hkeep.
Qed.

(** ** More on the generator *)

Lemma firsts_after_NoDup pre rows :
  NoDup (hostname <$> (pre ++ rows)) →
  firsts_after pre rows = rows ∧ repeats_after pre rows = [].
Proof.
  revert pre. induction rows as [|r rows IH]; intros pre Hnd; [done|].
  rewrite firsts_after_cons, repeats_after_cons.
  assert (hostname r ∉ hostname <$> pre) as Hr.
  { rewrite fmap_app, fmap_cons in Hnd.
    apply NoDup_app in Hnd as (_ & Hdisj & _).
    intros Hin. apply (Hdisj _ Hin), list_elem_of_here. }
  rewrite !decide_False by done.
  destruct (IH (pre ++ [r])) as [-> ->]; [|done].
  by rewrite <-(assoc_L (++)).
Qed.

Lemma record_pairs_uids a port n rows :
  user_uids (record_pairs a port n rows) = uuid4_hex <$> seq n (length rows)
  ∧ machine_links (record_pairs a port n rows)
    = uuid4_hex <$> seq n (length rows).
Proof.
  revert n. induction rows as [|r rows IH]; intros n; [done|].
  destruct (IH (S n)) as [Hu Hm]. unfold user_uids, machine_links in *.
  cbn [record_pairs length seq fmap list_fmap].
  split.
  - change (omap ?f (pamUser a (uuid4_hex n) r
                     :: pamMachine a port (uuid4_hex n) r :: ?l))
      with (uuid4_hex n :: omap f l). by rewrite Hu.
  - change (omap ?f (pamUser a (uuid4_hex n) r
                     :: pamMachine a port (uuid4_hex n) r :: ?l))
      with (uuid4_hex n :: omap f l). by rewrite Hm.
Qed.

(** The link between machine and credential records is one to one when the
    random source repeats no identifier during the run: the identifiers of
    the credential records are then pairwise distinct, and the machine
    records link to exactly these identifiers, in the same order, one
    each. *)
Theorem generated_links_are_one_to_one (rows : list host_row) (a : args)
    (w w' : world) (recs : list json) :
  _gen_records rows a w = (Ok recs, w') →
  NoDup (uuid4_hex <$> seq (uuid_calls w) (length (first_rows rows))) →
  NoDup (user_uids recs)
  ∧ machine_links recs = user_uids recs
  ∧ length (user_uids recs) = size (hostnames rows)
  ∧ uuid_calls w' = uuid_calls w + size (hostnames rows).
Proof.
  intros Hgen Hnd.
  destruct (gen_records_inv _ _ _ _ _ Hgen) as (port & Hport & ->).
  destruct (record_pairs_uids a (Py.str_int port) (uuid_calls w)
              (first_rows rows)) as [Hu Hm].
  rewrite Hu, Hm. split_and!; [done|done| |].
  - by rewrite length_fmap, length_seq, first_rows_length.
  - destruct (gen_records_spec rows a w port Hport) as (_ & _ & Hcalls & _).
    rewrite Hgen in Hcalls. simpl in Hcalls.
    by rewrite Hcalls, first_rows_length.
Qed.

(** On rows whose hostnames are pairwise distinct the generator drops
    nothing: it returns one pair for every row, in order, and logs no
    warning. *)
Theorem gen_records_keeps_distinct_rows (rows : list host_row) (a : args)
    (w : world) (port : Z) :
  NoDup (hostname <$> rows) →
  default_port (protocol a) = Ok port →
  (_gen_records rows a w).1
  = Ok (record_pairs a (Py.str_int port) (uuid_calls w) rows)
  ∧ console (_gen_records rows a w).2 = console w
  ∧ length (record_pairs a (Py.str_int port) (uuid_calls w) rows)
    = 2 * length rows.
Proof.
  intros Hnd Hport.
  destruct (gen_records_spec rows a w port Hport) as (Hv & Hc & _).
  destruct (firsts_after_NoDup [] rows Hnd) as [Hfirst Hrep].
  unfold first_rows, repeated_rows in *. rewrite Hfirst in Hv.
  rewrite Hrep in Hc. simpl in Hc. rewrite app_nil_r in Hc.
  split_and!; [done|done|apply record_pairs_length].
Qed.

(** ** Edge cases of the writers *)

Lemma default_port_rejected p :
  protocol_accepted p = false → default_port p = Raise (KeyError p).
Proof.
  intros Hp. destruct (default_port p) as [n|e] eqn:Hport.
  - assert (protocol_accepted p = true) by (apply default_port_accepted; eauto).
    congruence.
  - unfold default_port in Hport. destruct (dict_get _ _); [done|].
    by injection Hport as <-.
Qed.

(** When no row is left (an empty CSV, only incomplete rows, or no host
    reachable) and the protocol is valid, [main] still ends normally and
    writes its files: the JSON document with an empty [records] array and
    command files that hold their header only. *)
Theorem main_without_rows_writes_headers (a : args) (order : list nat)
    (w w1 : world) (port : Z) :
  load_rows a order w = (Ok [], w1) →
  default_port (protocol a) = Ok port →
  dry_run a = false →
  (main a order w).1 = Ok ()
  ∧ fs (main a order w).2 !! "pam_records_import.json"
    = Some empty_import_text
  ∧ fs (main a order w).2 !! "pam_connection_commands.txt"
    = Some (_cmdfile_header "CONNECTIONS" +:+ NL)
  ∧ fs (main a order w).2 !! "pam_rotation_commands.txt"
    = Some (_cmdfile_header "ROTATION" +:+ NL).
Proof using All.
  intros Hload Hport Hdry.
  assert (main a order w = write_outputs [] a w1) as ->.
  { rewrite main_phases. unfold bind. by rewrite Hload. }
  destruct (write_outputs_spec [] a w1 port Hport Hdry)
    as (Hok & Hjson & Hconn & Hrot).
  split_and!; [done|by rewrite Hjson|by rewrite Hconn|by rewrite Hrot].
Qed.

(** The connection writer looks the port up once per row: with a protocol
    outside the table it raises [KeyError] on the first row, before it
    writes or logs anything, but on an empty row list it never looks the
    port up and writes the header as usual. *)
Theorem connection_writer_unknown_protocol (a : args) (r : host_row)
    (rows : list host_row) (w : world) :
  protocol_accepted (protocol a) = false →
  write_connection_commands (r :: rows) a w
  = (Raise (KeyError (protocol a)), w)
  ∧ (write_connection_commands [] a w).1 = Ok ()
  ∧ fs (write_connection_commands [] a w).2 !! "pam_connection_commands.txt"
    = if dry_run a then fs w !! "pam_connection_commands.txt"
      else Some (_cmdfile_header "CONNECTIONS" +:+ NL).
Proof.
  intros Hproto. split_and!.
  - unfold write_connection_commands. cbn [connection_lines].
    by rewrite (default_port_rejected _ Hproto).
  - unfold write_connection_commands. cbn [connection_lines].
    rewrite bind_lift_ok. apply write_ok.
  - unfold write_connection_commands. cbn [connection_lines].
    rewrite bind_lift_ok. apply write_fs, output_not_log.
Qed.

(** ** The schedule and the admin flag of the rotation commands *)



(** ** The default of [--threads] *)

(** Whatever [os.cpu_count()] returns, the default number of threads lies
    between 5 and 32, so the worker pool of the connectivity check is
    never refused under the default. *)
Theorem default_threads_are_accepted (cpu_count : option Z) (w : world) :
  match cpu_count with Some n => (0 <= n)%Z | None => True end →
  (5 <= default_threads cpu_count <= 32)%Z
  ∧ ThreadPoolExecutor (default_threads cpu_count) w = (Ok (), w).
Proof.
  intros Hcpu.
  assert (5 <= default_threads cpu_count <= 32)%Z as Hb.
  { unfold default_threads. destruct cpu_count as [n|]; [|lia].
    destruct (Z.eqb_spec n 0); lia. }
  split; [done|]. unfold ThreadPoolExecutor.
  destruct (Z.leb_spec (default_threads cpu_count) 0); [lia|done].
Qed.

(** ** The import document of any record list *)

(** What the unit test of [write_import_json] checks on one list holds for
    every list of records: the writer puts under
    [pam_records_import.json] a text that parses to a dictionary whose
    [records] are the list it was given and whose [shared_folders] are
    empty; on a dry run it writes no text. *)
Theorem write_import_json_keeps_any_records (records : list json) (a : args)
    (w : world) :
  forallb well_formed records = true →
  (write_import_json records a w).1 = Ok ()
  ∧ (dry_run a = true →
     fs (write_import_json records a w).2 !! "pam_records_import.json"
     = fs w !! "pam_records_import.json")
  ∧ (dry_run a = false →
     ∃ text doc,
       fs (write_import_json records a w).2 !! "pam_records_import.json"
       = Some text
       ∧ loads text = Some doc
       ∧ json_get "records" doc = Some (JArr records)
       ∧ json_get "shared_folders" doc = Some (JArr [])).
Proof.
  intros Hwf. unfold write_import_json. split_and!.
  - apply write_ok.
  - intros Hdry. rewrite write_fs by apply output_not_log. by rewrite Hdry.
  - intros Hdry. eexists _, _. split.
    { rewrite write_fs by apply output_not_log. by rewrite Hdry. }
    split; [by apply import_document_loads|done].
Qed.

(** ** The run log and the console *)

Lemma log_lines_app n rs1 rs2 :
  log_lines n (rs1 ++ rs2)
  = log_lines n rs1 +:+ log_lines (n + length rs1) rs2.
Proof.
  revert n. induction rs1 as [|r rs1 IH]; intros n; simpl.
  - by rewrite Nat.add_0_r.
  - by rewrite IH, str_app_assoc, Nat.add_succ_r.
Qed.

Lemma logs_pure {A} (r : result A) : logs_in_step (lift r).
Proof.
  intros w. exists []. simpl. by rewrite app_nil_r, str_app_nil_r.
Qed.

Lemma logs_ret {A} (x : A) : logs_in_step (ret x).
Proof. apply (logs_pure (Ok x)). Qed.

Lemma logs_raise {A} e : logs_in_step (raise (A:=A) e).
Proof. apply (logs_pure (Raise e)). Qed.

Lemma logs_fresh_uid : logs_in_step fresh_uid.
Proof.
  intros w. exists []. simpl. by rewrite app_nil_r, str_app_nil_r.
Qed.

Lemma logs_log l msg : logs_in_step (log l msg).
Proof.
  intros w. exists [LogRecord l msg]. simpl. unfold append_text.
  rewrite lookup_insert_eq. simpl. by rewrite str_app_nil_r.
Qed.

Lemma logs_write_text fpath content :
  fpath ≠ log_path → logs_in_step (write_text fpath content).
Proof.
  intros Hne w. exists []. simpl.
  rewrite lookup_insert_ne by done. by rewrite app_nil_r, str_app_nil_r.
Qed.

Lemma logs_bind {A B} (m : M A) (k : A → M B) :
  logs_in_step m → (∀ x, logs_in_step (k x)) → logs_in_step (bind m k).
Proof.
  intros Hm Hk w. unfold bind. destruct (Hm w) as (new1 & Hc1 & Hf1 & Hs1).
  destruct (m w) as [[x|e] w1]; [|by exists new1].
  destruct (Hk x w1) as (new2 & Hc2 & Hf2 & Hs2). simpl in *.
  exists (new1 ++ new2). split_and!.
  - by rewrite Hc2, Hc1, <-(assoc_L (++)).
  - rewrite Hf2, Hf1, Hc1, log_lines_app, length_app.
    by rewrite str_app_assoc.
  - auto.
Qed.

Create HintDb logs discriminated.
#[local] Hint Resolve logs_pure logs_ret logs_raise logs_fresh_uid logs_log
  : logs.

Ltac logs_step :=
  repeat first
    [ solve [auto with logs]
    | apply logs_bind; [|intros ?]
    | match goal with
      | |- logs_in_step (if ?b then _ else _) => destruct b
      end ].

Lemma logs_write fpath content dry :
  fpath ≠ log_path → logs_in_step (_write fpath content dry).
Proof using All.
  intros Hne. unfold _write. destruct dry; logs_step.
  by apply logs_write_text.
Qed.

Lemma logs_read_rows rows :
  ∀ line_no out, logs_in_step (read_rows rows line_no out).
Proof using All.
  induction rows as [|row rows IH]; intros line_no out; simpl; logs_step;
    apply IH.
Qed.

Lemma logs_read_csv path : logs_in_step (_read_csv path).
Proof using All.
  intros w. unfold _read_csv. destruct (fs w !! path) as [text|].
  - apply logs_read_rows.
  - revert w. logs_step.
Qed.

Lemma logs_collect_reachable rows order :
  ∀ ok, logs_in_step (collect_reachable rows order ok).
Proof using All.
  induction order as [|i order IH]; intros ok; simpl; [logs_step|].
  destruct (rows !! i) as [r|]; [|apply IH]. logs_step; apply IH.
Qed.

Lemma logs_gen_loop a port rows :
  ∀ seen recs, logs_in_step (gen_loop a port rows seen recs).
Proof using All.
  induction rows as [|r rows IH]; intros seen recs; simpl; [logs_step|].
  destruct (decide _); logs_step; apply IH.
Qed.

Lemma logs_main a order : logs_in_step (main a order).
Proof using All.
  unfold main, ThreadPoolExecutor, _gen_records, write_import_json,
    write_setup_commands, write_connection_commands, write_rotation_commands.
  repeat first
    [ solve [auto with logs]
    | apply logs_read_csv
    | apply logs_collect_reachable
    | apply logs_gen_loop
    | apply logs_write; apply output_not_log
    | apply logs_bind; [|intros ?]
    | match goal with
      | |- logs_in_step (if ?b then _ else _) => destruct b
      end ].
Qed.

(** The run log and the console stay in step: in every run, however it
    ends, the run log holds after the run what it held before (nothing, if
    the file is new) followed by one formatted line for each record the
    run emitted on the console, in the same order. *)
Theorem run_log_matches_console (a : args) (order : list nat) (w : world) :
  ∃ new,
    console (run a order w).2 = console w ++ new
    ∧ fs (run a order w).2 !! log_path
      = Some (default "" (fs w !! log_path)
              +:+ log_lines (length (console w)) new).
Proof using All.
  rewrite run_after_init.
  destruct (logs_main a order (module_init w).2) as (new & Hc & Hf & Hs).
  exists new. split; [exact Hc|].
  destruct (module_init_same_files w) as [_ Hsome].
  destruct (Hs Hsome) as [text Htext]. rewrite Htext in Hf |- *.
  simpl in Hf. rewrite Hf. f_equal. f_equal.
  unfold module_init, open_append. simpl.
  destruct (fs w !! log_path) as [old|] eqn:Hold; simpl.
  - by rewrite Hold.
  - by rewrite lookup_insert_eq.
Qed.

(** ** The characters of the import document *)







(** ** A whole run on a well-formed input *)

Lemma read_rows_uuid_calls rows :
  ∀ n out w, uuid_calls (read_rows rows n out w).2 = uuid_calls w.
Proof.
  induction rows as [|row rows IH]; intros n out w; [done|].
  cbn [read_rows]. unfold get_stripped.
  destruct (row !! "hostname") as [[h|]|]; [|done|];
    (destruct (row !! "initial_admin_user") as [[u|]|]; [|done|]);
    (destruct (row !! "initial_admin_password") as [[p|]|]; [|done|]);
    rewrite !bind_lift_ok;
    (destruct (_ && _); [apply IH|rewrite bind_log, IH; apply log_uuid_calls]).
Qed.

Lemma load_rows_spec a order w text :
  fs w !! csv a = Some text →
  forallb has_all_fields (DictReader (csv_reader text)) = true →
  (connectivity_check a = true → (0 < threads a)%Z) →
  (∀ j h e, net j h _probe_port _probe_timeout = Raise e → is_OSError e = true) →
  (load_rows a order w).1
  = Ok (if connectivity_check a
        then reachable_as_completed
               (omap entry_of (DictReader (csv_reader text))) order
        else omap entry_of (DictReader (csv_reader text)))
  ∧ uuid_calls (load_rows a order w).2 = uuid_calls w.
Proof.
  intros Hfs Hall Hthreads Hnet. unfold load_rows.
  assert ((_read_csv (csv a) w).1
          = Ok (omap entry_of (DictReader (csv_reader text)))) as Hread.
  { unfold _read_csv. rewrite Hfs. apply (read_rows_spec _ Hall 1 [] w). }
  assert (uuid_calls (_read_csv (csv a) w).2 = uuid_calls w) as Hu.
  { unfold _read_csv. rewrite Hfs. apply read_rows_uuid_calls. }
  rewrite (bind_ok_fst _ _ _ _ Hread).
  set (w1 := (_read_csv (csv a) w).2) in *.
  set (loaded := omap entry_of (DictReader (csv_reader text))).
  destruct (connectivity_check a).
  - rewrite bind_assoc, bind_log, bind_assoc.
    assert (∀ w0, ThreadPoolExecutor (threads a) w0 = (Ok (), w0)) as Hpool.
    { intros w0. unfold ThreadPoolExecutor.
      destruct (Z.leb_spec (threads a) 0) as [Hle|_]; [|done].
      specialize (Hthreads eq_refl). lia. }
    set (w2 := (log INFO _ w1).2).
    assert (uuid_calls w2 = uuid_calls w1) as Hu2 by apply log_uuid_calls.
    clearbody w2.
    rewrite (bind_ok_fst (ThreadPoolExecutor (threads a)) _ w2 ())
      by (by rewrite Hpool).
    rewrite Hpool. cbn [snd].
    destruct (collect_reachable_spec loaded order Hnet [] w2)
      as (Hv & _ & Hc).
    rewrite (bind_ok_fst _ _ _ _ Hv). cbv beta.
    split; [reflexivity|].
    change (uuid_calls (collect_reachable loaded order [] w2).2 = uuid_calls w).
    congruence.
  - change (bind (ret loaded) ?k w1) with (k loaded w1).
    split; [reflexivity|]. exact Hu.
Qed.

(** A complete run on a well-formed input succeeds and its three data
    files are determined by the CSV text, the options and the outcomes of
    the probes: when the CSV exists, every row reaches the three columns,
    the protocol is a known one, the pool size is positive if the check is
    on and a probe fails with [OSError] at worst, [main] returns; the rows
    kept are the complete rows (those reachable, in completion order, under
    the check); the JSON document holds the record pairs of the first rows
    per hostname and both command files hold one command per kept row. *)
Theorem main_succeeds_on_well_formed_input (a : args) (order : list nat)
    (w : world) (text : string) (port : Z) (kept : list host_row) :
  fs w !! csv a = Some text →
  forallb has_all_fields (DictReader (csv_reader text)) = true →
  (connectivity_check a = true → (0 < threads a)%Z) →
  (∀ j h e, net j h _probe_port _probe_timeout = Raise e → is_OSError e = true) →
  default_port (protocol a) = Ok port →
  dry_run a = false →
  kept = (if connectivity_check a
          then reachable_as_completed
                 (omap entry_of (DictReader (csv_reader text))) order
          else omap entry_of (DictReader (csv_reader text))) →
  (main a order w).1 = Ok ()
  ∧ fs (main a order w).2 !! "pam_records_import.json"
    = Some (dumps (import_document
                     (record_pairs a (Py.str_int port) (uuid_calls w)
                        (first_rows kept))))
  ∧ fs (main a order w).2 !! "pam_connection_commands.txt"
    = Some (Py.join NL (_cmdfile_header "CONNECTIONS"
                        :: connection_commands a port kept) +:+ NL)
  ∧ fs (main a order w).2 !! "pam_rotation_commands.txt"
    = Some (Py.join NL (_cmdfile_header "ROTATION" :: rotation_lines a kept)
            +:+ NL).
Proof.
  intros Hfs Hall Hthreads Hnet Hport Hdry Hkept.
  destruct (load_rows_spec a order w text Hfs Hall Hthreads Hnet)
    as [Hload Hu].
  rewrite <-Hkept in Hload.
  rewrite main_phases, (bind_ok_fst _ _ _ _ Hload).
  destruct (write_outputs_spec kept a (load_rows a order w).2 port Hport Hdry)
    as (Hok & Hjson & Hconn & Hrot).
  rewrite Hu in Hjson. done.
Qed.

End script.

Local Open Scope nat_scope.

(** * The probe and the network: independent of the section's network *)

(** C8 (amended): for every host, port and timeout the probe returns true
    when the connection is established and false when the attempt raises an
    [OSError], the class of every connection error and timeout, without
    passing the error on; an exception of another class is not caught and
    propagates.  The orchestrator probes the fixed port 5986 with the
    timeout 3.0, never the port of the configured protocol: its filter is
    the same under any two networks that agree on that port and timeout,
    and no protocol has 5986 as its default port. *)
Theorem probe_collapses_oserror_and_uses_5986
    (connect : string → Z → Q → result unit) (host : string) (port : Z)
    (timeout : Q) :
  (connect host port timeout = Ok () →
   _probe connect host port timeout = Ok true)
  ∧ (∀ e, connect host port timeout = Raise e →
          _probe connect host port timeout
          = if is_OSError e then Ok false else Raise e)
  ∧ (∀ e, is_OSError (OSError e) = true)
  ∧ _probe_port = 5986%Z
  ∧ _probe_timeout = 3 # 1
  ∧ (∀ p n, default_port p = Ok n → n ≠ _probe_port)
  ∧ (∀ stamp asctime (net net' : nat → string → Z → Q → result unit)
       rows order ok w,
       (∀ i h, net i h 5986%Z (3 # 1) = net' i h 5986%Z (3 # 1)) →
       collect_reachable stamp asctime net rows order ok w
       = collect_reachable stamp asctime net' rows order ok w).
Proof.
  split_and!; try done.
  - apply probe_ok.
  - intros e He. destruct (is_OSError e) eqn:Hos.
    + by apply probe_oserror with e.
    + by apply probe_other.
  - intros p n. unfold default_port, _DEFAULT_PORTS. cbn [dict_get].
    repeat match goal with
           | |- context [String.eqb ?s p] => destruct (String.eqb s p)
           end; intros [= <-]; done.
  - intros stamp asctime net net' rows order ok w Hagree. revert ok w.
    induction order as [|i order IH]; intros ok w; [done|].
    cbn [collect_reachable]. destruct (rows !! i) as [r|]; [|apply IH].
    unfold _probe, _probe_port, _probe_timeout. rewrite Hagree.
    apply bind_ext. intros [] w1; [apply IH|].
    apply bind_ext. intros _ w2. apply IH.
Qed.

(** * A concrete run

    One environment for the closed statements below: a fixed clock, a
    counter in place of the random source, a reader for CSV text without
    quoting, and networks given by the list of probe outcomes. *)

Definition ex_stamp : string := "20250101T000000Z".

Definition ex_asctime (n : nat) : string := "2025-01-01 00:00:00,000".

Definition ex_header_stamp (title : string) : string := "2025-01-01T00:00Z".

Definition ex_uuid (n : nat) : string :=
  "3f2b8c1e9d4a4f6fb0c5a7e1d2c3b4a" +:+ Py.str_int (Z.of_nat n).

(** [s.split(sep)] for a one-character separator. *)
Fixpoint split_char (sep : ascii) (s : string) : list string :=
  match s with
  | EmptyString => [""]
  | String c s' =>
      match split_char sep s' with
      | cur :: rest =>
          if Ascii.eqb c sep then "" :: cur :: rest else String c cur :: rest
      | [] => []
      end
  end.

Definition drop_last_empty (ls : list string) : list string :=
  match reverse ls with
  | "" :: rest => reverse rest
  | _ => ls
  end.

(** [csv.reader] on a text without quotes and carriage returns: one record
    per line, the fields between the commas, a blank line the empty
    record. *)
Definition plain_csv_reader (text : string) : list (list string) :=
  (λ line, match line with
           | EmptyString => []
           | _ => split_char "," line
           end) <$> drop_last_empty (split_char "010" text).

Definition ex_csv_text : string :=
  "hostname,initial_admin_user,initial_admin_password" +:+ NL
  +:+ "web1,admin,Pw1!" +:+ NL +:+ "web1,admin,Pw2!" +:+ NL
  +:+ "db1,,Pw3!" +:+ NL +:+ "app1,root,Pw4!" +:+ NL.

(** The same header with a second line that stops after two fields. *)
Definition short_row_csv_text : string :=
  "hostname,initial_admin_user,initial_admin_password" +:+ NL
  +:+ "web1,admin" +:+ NL.

Definition ex_world (text : string) : world :=
  World {["servers_to_import.csv" := text]} [] 0.

Definition ex_args (dry check : bool) : args :=
  Args "GW-UID" "servers_to_import.csv" "PAM_Users" "PAM_Resources" None None
       "{'type':'DAILY','time':'02:00','tz':'UTC'}" "mysql" "Windows"
       false dry check 8%Z.

Definition web1 : host_row := HostRow "web1" "admin" "Pw1!".
Definition web1_again : host_row := HostRow "web1" "admin" "Pw2!".
Definition app1 : host_row := HostRow "app1" "root" "Pw4!".

Definition ex_rows : list host_row := [web1; web1_again; app1].

(** The network in which the i-th probe connects when the i-th outcome is
    true and is refused otherwise. *)
Definition ex_net (outcomes : list bool) (i : nat) (host : string) (port : Z)
    (timeout : Q) : result unit :=
  if nth i outcomes false then Ok () else Raise (OSError ConnectionRefusedError).

(** A connection attempt in which [settimeout] refuses a negative timeout
    before anything is sent. *)
Definition connect_checking_timeout (host : string) (port : Z) (timeout : Q)
  : result unit :=
  if Qle_bool 0 timeout then Ok ()
  else Raise (ValueError "Timeout value out of range").

Definition hosts_abcd : list host_row :=
  [HostRow "A" "u" "p"; HostRow "B" "u" "p"; HostRow "C" "u" "p";
   HostRow "D" "u" "p"].

Definition ex_generated : result (list json) * world :=
  _gen_records ex_stamp ex_asctime ex_uuid ex_rows (ex_args false false)
    (ex_world ex_csv_text).

Definition ex_records : list json :=
  record_pairs ex_uuid (ex_args false false) "3306" 0 [web1; app1].

Lemma ex_generated_eq : ex_generated = (Ok ex_records, ex_generated.2).
Proof. vm_compute. reflexivity. Qed.

Lemma plain_csv_reader_scenario : plain_csv_reader ex_csv_text = scenario_records.
Proof. vm_compute. reflexivity. Qed.

Lemma ex_net_oserror outcomes j h e :
  ex_net outcomes j h _probe_port _probe_timeout = Raise e →
  is_OSError e = true.
Proof. unfold ex_net. destruct (nth j outcomes false); [done|]. by intros [= <-]. Qed.

(** ** The theorems at the concrete run *)

Lemma gen_records_one_pair_per_hostname_witness :
  protocol_accepted (protocol (ex_args false false)) = true
  ∧ ∃ port,
      default_port "mysql" = Ok port
      ∧ ex_generated.1
        = Ok (record_pairs ex_uuid (ex_args false false) (Py.str_int port) 0
                (first_rows ex_rows))
      ∧ length (first_rows ex_rows) = size (hostnames ex_rows).
Proof.
  split; [reflexivity|].
  destruct (gen_records_one_pair_per_hostname ex_stamp ex_asctime ex_uuid
              ex_rows (ex_args false false) (ex_world ex_csv_text) eq_refl)
    as (port & Hport & Hv & _ & Hlen & _).
  exists port. split; [exact Hport|]. split; [exact Hv|exact Hlen].
Defined.

Lemma import_json_keys_and_links_witness :
  ex_generated = (Ok ex_records, ex_generated.2)
  ∧ ∃ items,
      Json.loads (Json.dumps (import_document ex_records))
      = Some (JObj [("shared_folders", JArr []); ("records", JArr items)]).
Proof.
  split; [exact ex_generated_eq|].
  destruct (import_json_keys_and_links ex_stamp ex_asctime ex_uuid ex_rows
              (ex_args false false) (ex_world ex_csv_text) ex_generated.2
              ex_records ex_generated_eq)
    as (items & Hloads & _).
  exists items. exact Hloads.
Defined.

Lemma import_json_round_trip_witness :
  ex_generated = (Ok ex_records, ex_generated.2)
  ∧ ∃ parsed items,
      Json.loads (Json.dumps (import_document ex_records)) = Some parsed
      ∧ json_get "records" parsed = Some (JArr items)
      ∧ rec_title <$> items = rec_title <$> ex_records.
Proof.
  split; [exact ex_generated_eq|].
  destruct (import_json_round_trip ex_stamp ex_asctime ex_uuid ex_rows
              (ex_args false false) (ex_world ex_csv_text) ex_generated.2
              ex_records ex_generated_eq)
    as (parsed & items & Hloads & Hget & _ & Htitles & _).
  exists parsed, items. split; [exact Hloads|]. split; [exact Hget|exact Htitles].
Defined.

Lemma reachability_filter_follows_completion_witness :
  (∀ j h e,
     ex_net [true; false; true; false] j h _probe_port _probe_timeout = Raise e →
     is_OSError e = true)
  ∧ [2; 0; 1; 3] ≡ₚ seq 0 (length hosts_abcd)
  ∧ (collect_reachable ex_stamp ex_asctime (ex_net [true; false; true; false])
       hosts_abcd [2; 0; 1; 3] [] (ex_world ex_csv_text)).1
    = Ok (reachable_as_completed (ex_net [true; false; true; false])
            hosts_abcd [2; 0; 1; 3])
  ∧ reachable_as_completed (ex_net [true; false; true; false]) hosts_abcd
      [2; 0; 1; 3]
    ≡ₚ reachable_rows (ex_net [true; false; true; false]) hosts_abcd.
Proof.
  assert ([2; 0; 1; 3] ≡ₚ seq 0 (length hosts_abcd)) as Hperm.
  { apply (bool_decide_unpack _). vm_compute. exact I. }
  split; [exact (ex_net_oserror _)|]. split; [exact Hperm|].
  destruct (reachability_filter_follows_completion ex_stamp ex_asctime
              (ex_net [true; false; true; false]) hosts_abcd [2; 0; 1; 3]
              (ex_world ex_csv_text) (ex_net_oserror _) Hperm)
    as (Hv & Hp & _).
  split; [exact Hv|exact Hp].
Defined.

(** C3, as stated, fails: with the rows A, B, C, D, the probes of B and D
    refused and the probe of C completing before the probe of A, the
    filtered list is C, A, not the stable subsequence A, C. *)
Lemma reachability_filter_can_reorder :
  [2; 0; 1; 3] ≡ₚ seq 0 (length hosts_abcd)
  ∧ (collect_reachable ex_stamp ex_asctime (ex_net [true; false; true; false])
       hosts_abcd [2; 0; 1; 3] [] (ex_world ex_csv_text)).1
    = Ok [HostRow "C" "u" "p"; HostRow "A" "u" "p"]
  ∧ reachable_rows (ex_net [true; false; true; false]) hosts_abcd
    = [HostRow "A" "u" "p"; HostRow "C" "u" "p"]
  ∧ (collect_reachable ex_stamp ex_asctime (ex_net [true; false; true; false])
       hosts_abcd [2; 0; 1; 3] [] (ex_world ex_csv_text)).1
    ≠ Ok (reachable_rows (ex_net [true; false; true; false]) hosts_abcd).
Proof.
  split; [apply (bool_decide_unpack _); vm_compute; exact I|].
  split; [vm_compute; reflexivity|].
  split; [vm_compute; reflexivity|].
  vm_compute. intros H. discriminate H.
Qed.

Lemma dry_run_changes_only_the_run_log_witness :
  dry_run (ex_args true false) = true
  ∧ ∀ p, p ≠ log_path ex_stamp →
         fs (run ex_stamp ex_asctime ex_header_stamp ex_uuid plain_csv_reader
               (ex_net []) (ex_args true false) [] (ex_world ex_csv_text)).2
         !! p
         = fs (ex_world ex_csv_text) !! p.
Proof.
  split; [reflexivity|].
  exact (proj1 (dry_run_changes_only_the_run_log ex_stamp ex_asctime
                  ex_header_stamp ex_uuid plain_csv_reader (ex_net [])
                  (ex_args true false) [] (ex_world ex_csv_text) eq_refl)).
Defined.

(** C4, as stated, fails: a dry run creates a file that did not exist, the
    run log, and writes to it. *)
Lemma dry_run_creates_the_run_log :
  dry_run (ex_args true false) = true
  ∧ fs (ex_world ex_csv_text) !! log_path ex_stamp = None
  ∧ is_Some
      (fs (run ex_stamp ex_asctime ex_header_stamp ex_uuid plain_csv_reader
             (ex_net []) (ex_args true false) [] (ex_world ex_csv_text)).2
       !! log_path ex_stamp)
  ∧ fs (_write ex_stamp ex_asctime "pam_setup_commands.txt" "text" true
          (ex_world ex_csv_text)).2
    ≠ fs (ex_world ex_csv_text).
Proof.
  split; [reflexivity|]. split; [vm_compute; reflexivity|].
  split; [vm_compute; eexists; reflexivity|].
  intros Heq.
  apply (f_equal (λ f, f !! log_path ex_stamp)) in Heq.
  vm_compute in Heq. discriminate Heq.
Qed.

(** C8, as stated, fails: a connection attempt that raises an exception
    outside [OSError], here the [ValueError] of a negative timeout, makes
    the probe raise. *)
Lemma probe_propagates_other_exceptions :
  _probe connect_checking_timeout "localhost" 5986%Z (-1 # 1)
  = Raise (ValueError "Timeout value out of range").
Proof. reflexivity. Qed.

Lemma scenario_two_pairs_and_default_ports_witness :
  plain_csv_reader ex_csv_text = scenario_records
  ∧ fs (ex_world ex_csv_text) !! csv (ex_args false false) = Some ex_csv_text
  ∧ protocol (ex_args false false) = "mysql"
  ∧ ((let* rows := _read_csv ex_stamp ex_asctime plain_csv_reader
                     (csv (ex_args false false)) in
      _gen_records ex_stamp ex_asctime ex_uuid rows (ex_args false false))
       (ex_world ex_csv_text)).1
    = Ok [pamUser (ex_args false false) (ex_uuid 0) web1;
          pamMachine (ex_args false false) "3306" (ex_uuid 0) web1;
          pamUser (ex_args false false) (ex_uuid 1) app1;
          pamMachine (ex_args false false) "3306" (ex_uuid 1) app1].
Proof.
  assert (fs (ex_world ex_csv_text) !! csv (ex_args false false)
          = Some ex_csv_text) as Hfs by (vm_compute; reflexivity).
  split; [exact plain_csv_reader_scenario|]. split; [exact Hfs|].
  split; [reflexivity|].
  exact (proj1 (scenario_two_pairs_and_default_ports ex_stamp ex_asctime
                  ex_uuid plain_csv_reader (ex_args false false) ex_csv_text
                  (ex_world ex_csv_text) plain_csv_reader_scenario Hfs
                  eq_refl)).
Defined.

Definition ex_loaded : result (list host_row) * world :=
  load_rows ex_stamp ex_asctime plain_csv_reader (ex_net [])
    (ex_args false false) [] (ex_world ex_csv_text).

Lemma ex_loaded_eq : ex_loaded = (Ok ex_rows, ex_loaded.2).
Proof. vm_compute. reflexivity. Qed.

Lemma command_files_keep_repeated_rows_witness :
  ex_loaded = (Ok ex_rows, ex_loaded.2)
  ∧ default_port (protocol (ex_args false false)) = Ok 3306%Z
  ∧ dry_run (ex_args false false) = false
  ∧ (main ex_stamp ex_asctime ex_header_stamp ex_uuid plain_csv_reader
       (ex_net []) (ex_args false false) [] (ex_world ex_csv_text)).1
    = Ok ()
  ∧ length (connection_commands (ex_args false false) 3306%Z ex_rows) = 3
  ∧ length (filter (λ line, line = connection_command (ex_args false false)
                                     3306%Z "web1")
              (connection_commands (ex_args false false) 3306%Z ex_rows))
    = 2
  ∧ length (filter (λ line, line = rotation_command (ex_args false false) "web1")
              (rotation_lines (ex_args false false) ex_rows))
    = 2
  ∧ ∃ recs,
      fs (main ex_stamp ex_asctime ex_header_stamp ex_uuid plain_csv_reader
            (ex_net []) (ex_args false false) [] (ex_world ex_csv_text)).2
      !! "pam_records_import.json"
      = Some (Json.dumps (import_document recs))
      ∧ length (filter (λ m, is_machine_for "web1" m) recs) = 1.
Proof.
  split; [exact ex_loaded_eq|]. split; [reflexivity|]. split; [reflexivity|].
  destruct (command_files_keep_repeated_rows ex_stamp ex_asctime
              ex_header_stamp ex_uuid plain_csv_reader (ex_net [])
              (ex_args false false) [] (ex_world ex_csv_text) ex_loaded.2
              ex_rows 3306%Z ex_loaded_eq eq_refl eq_refl)
    as (Hok & _ & _ & Hlen & _ & Hcount & recs & Hjson & _ & Hone).
  split; [exact Hok|]. split; [exact Hlen|].
  destruct (Hcount "web1") as (Hc & Hr & _).
  split; [exact Hc|]. split; [exact Hr|].
  exists recs. split; [exact Hjson|].
  apply Hone. apply elem_of_hostnames. apply list_elem_of_here.
Defined.

(** C5 at the failing input: on a CSV whose second line stops after two
    fields, [csv.DictReader] binds the third column to [None], and the
    loader, instead of skipping the row with a warning, raises
    [AttributeError]; with the third field present but empty the same row
    is skipped with the warning for row 1. *)
Lemma read_csv_short_row_raises :
  plain_csv_reader short_row_csv_text
  = [["hostname"; "initial_admin_user"; "initial_admin_password"];
     ["web1"; "admin"]]
  ∧ (_read_csv ex_stamp ex_asctime plain_csv_reader "servers_to_import.csv"
       (ex_world short_row_csv_text)).1
    = Raise (AttributeError "'NoneType' object has no attribute 'strip'")
  ∧ (_read_csv ex_stamp ex_asctime
       (λ _, [["hostname"; "initial_admin_user"; "initial_admin_password"];
              ["web1"; "admin"; ""]])
       "servers_to_import.csv" (ex_world short_row_csv_text)).1
    = Ok []
  ∧ console
      (_read_csv ex_stamp ex_asctime
         (λ _, [["hostname"; "initial_admin_user"; "initial_admin_password"];
                ["web1"; "admin"; ""]])
         "servers_to_import.csv" (ex_world short_row_csv_text)).2
    = [LogRecord WARNING (row_incomplete_message 1)].
Proof. split_and!; vm_compute; reflexivity. Qed.

Lemma read_csv_keeps_complete_rows_witness :
  fs (ex_world ex_csv_text) !! "servers_to_import.csv" = Some ex_csv_text
  ∧ forallb has_all_fields (DictReader (plain_csv_reader ex_csv_text)) = true
  ∧ omap entry_of (DictReader (plain_csv_reader ex_csv_text)) = ex_rows
  ∧ (_read_csv ex_stamp ex_asctime plain_csv_reader "servers_to_import.csv"
       (ex_world ex_csv_text)).1
    = Ok (omap entry_of (DictReader (plain_csv_reader ex_csv_text))).
Proof.
  assert (fs (ex_world ex_csv_text) !! "servers_to_import.csv"
          = Some ex_csv_text) as Hfs by (vm_compute; reflexivity).
  assert (forallb has_all_fields (DictReader (plain_csv_reader ex_csv_text))
          = true) as Hall by (vm_compute; reflexivity).
  split; [exact Hfs|]. split; [exact Hall|].
  split; [vm_compute; reflexivity|].
  exact (proj1 (read_csv_keeps_complete_rows ex_stamp ex_asctime
                  plain_csv_reader "servers_to_import.csv" ex_csv_text
                  (ex_world ex_csv_text) Hfs Hall)).
Defined.

(** ** Further inputs *)

(** A header whose first column is not named [hostname]. *)
Definition renamed_header_csv_text : string :=
  "host,initial_admin_user,initial_admin_password" +:+ NL
  +:+ "web1,admin,Pw1!" +:+ NL +:+ NL +:+ "app1,root,Pw4!" +:+ NL.

(** A header and nothing else. *)
Definition header_only_csv_text : string :=
  "hostname,initial_admin_user,initial_admin_password" +:+ NL.

(** The options with a protocol outside the table of ports, as a caller of
    the functions can pass it. *)
Definition telnet_args : args :=
  Args "GW-UID" "servers_to_import.csv" "PAM_Users" "PAM_Resources" None None
       "{}" "telnet" "Windows" false false false 8%Z.

Definition no_files : world := World ∅ [] 0.

Lemma read_csv_entries_are_trimmed_and_nonempty_witness :
  (_read_csv ex_stamp ex_asctime plain_csv_reader "servers_to_import.csv"
     (ex_world ex_csv_text)).1 = Ok ex_rows
  ∧ Forall (λ r, hostname r ≠ "" ∧ Py.strip (password r) = password r)
      ex_rows.
Proof.
  assert ((_read_csv ex_stamp ex_asctime plain_csv_reader
             "servers_to_import.csv" (ex_world ex_csv_text)).1 = Ok ex_rows)
    as Hread by (vm_compute; reflexivity).
  split; [exact Hread|].
  eapply Forall_impl;
    [exact (read_csv_entries_are_trimmed_and_nonempty ex_stamp ex_asctime
              plain_csv_reader "servers_to_import.csv" (ex_world ex_csv_text)
              ex_rows Hread)|].
  intros r (Hh & _ & _ & _ & _ & Hp). split; [exact Hh|exact Hp].
Defined.

Lemma read_csv_header_without_column_witness :
  plain_csv_reader renamed_header_csv_text
  = ["host"; "initial_admin_user"; "initial_admin_password"]
    :: [["web1"; "admin"; "Pw1!"]; []; ["app1"; "root"; "Pw4!"]]
  ∧ ("hostname" ∉ ["host"; "initial_admin_user"; "initial_admin_password"])
  ∧ (_read_csv ex_stamp ex_asctime plain_csv_reader "servers_to_import.csv"
       (ex_world renamed_header_csv_text)).1 = Ok []
  ∧ console
      (_read_csv ex_stamp ex_asctime plain_csv_reader "servers_to_import.csv"
         (ex_world renamed_header_csv_text)).2
    = [LogRecord WARNING (row_incomplete_message 1);
       LogRecord WARNING (row_incomplete_message 2)].
Proof.
  assert (plain_csv_reader renamed_header_csv_text
          = ["host"; "initial_admin_user"; "initial_admin_password"]
            :: [["web1"; "admin"; "Pw1!"]; []; ["app1"; "root"; "Pw4!"]])
    as Hreader by (vm_compute; reflexivity).
  assert ("hostname" ∉ ["host"; "initial_admin_user"; "initial_admin_password"])
    as Habsent by (apply (bool_decide_unpack _); vm_compute; exact I).
  split; [exact Hreader|]. split; [exact Habsent|].
  destruct (read_csv_header_without_column ex_stamp ex_asctime
              plain_csv_reader "servers_to_import.csv" renamed_header_csv_text
              ["host"; "initial_admin_user"; "initial_admin_password"]
              [["web1"; "admin"; "Pw1!"]; []; ["app1"; "root"; "Pw4!"]]
              "hostname" (ex_world renamed_header_csv_text)
              eq_refl Hreader (list_elem_of_here _ _) Habsent eq_refl)
    as [Hv Hc].
  split; [exact Hv|exact Hc].
Defined.

Lemma run_changes_only_outputs_and_log_witness :
  ("servers_to_import.csv" ∉ output_files)
  ∧ "servers_to_import.csv" ≠ log_path ex_stamp
  ∧ fs (run ex_stamp ex_asctime ex_header_stamp ex_uuid plain_csv_reader
          (ex_net []) (ex_args false false) [] (ex_world ex_csv_text)).2
    !! "servers_to_import.csv"
    = fs (ex_world ex_csv_text) !! "servers_to_import.csv".
Proof.
  assert ("servers_to_import.csv" ∉ output_files) as Hout
    by (apply (bool_decide_unpack _); vm_compute; exact I).
  assert ("servers_to_import.csv" ≠ log_path ex_stamp) as Hlog
    by (apply (bool_decide_unpack _); vm_compute; exact I).
  split; [exact Hout|]. split; [exact Hlog|].
  exact (run_changes_only_outputs_and_log ex_stamp ex_asctime ex_header_stamp
           ex_uuid plain_csv_reader (ex_net []) (ex_args false false) []
           (ex_world ex_csv_text) "servers_to_import.csv" Hout Hlog).
Defined.

Lemma main_load_failure_writes_nothing_witness :
  (load_rows ex_stamp ex_asctime plain_csv_reader (ex_net [])
     (ex_args false false) [] no_files).1 = Raise (SystemExit 1)
  ∧ (main ex_stamp ex_asctime ex_header_stamp ex_uuid plain_csv_reader
       (ex_net []) (ex_args false false) [] no_files).1
    = Raise (SystemExit 1)
  ∧ ∀ p, p ≠ log_path ex_stamp →
         fs (main ex_stamp ex_asctime ex_header_stamp ex_uuid plain_csv_reader
               (ex_net []) (ex_args false false) [] no_files).2 !! p
         = fs no_files !! p.
Proof.
  assert ((load_rows ex_stamp ex_asctime plain_csv_reader (ex_net [])
             (ex_args false false) [] no_files).1 = Raise (SystemExit 1))
    as Hload by (vm_compute; reflexivity).
  split; [exact Hload|].
  destruct (main_load_failure_writes_nothing ex_stamp ex_asctime
              ex_header_stamp ex_uuid plain_csv_reader (ex_net [])
              (ex_args false false) [] no_files (SystemExit 1) Hload)
    as (Hv & Hfs & _).
  split; [exact Hv|exact Hfs].
Defined.

Definition telnet_loaded : result (list host_row) * world :=
  load_rows ex_stamp ex_asctime plain_csv_reader (ex_net []) telnet_args []
    (ex_world ex_csv_text).

Lemma telnet_loaded_eq : telnet_loaded = (Ok ex_rows, telnet_loaded.2).
Proof. vm_compute. reflexivity. Qed.

Lemma main_unknown_protocol_writes_nothing_witness :
  telnet_loaded = (Ok ex_rows, telnet_loaded.2)
  ∧ protocol_accepted (protocol telnet_args) = false
  ∧ (main ex_stamp ex_asctime ex_header_stamp ex_uuid plain_csv_reader
       (ex_net []) telnet_args [] (ex_world ex_csv_text)).1
    = Raise (KeyError "telnet").
Proof.
  split; [exact telnet_loaded_eq|]. split; [reflexivity|].
  exact (proj1 (main_unknown_protocol_writes_nothing ex_stamp ex_asctime
                  ex_header_stamp ex_uuid plain_csv_reader (ex_net [])
                  telnet_args [] (ex_world ex_csv_text) telnet_loaded.2
                  ex_rows telnet_loaded_eq eq_refl)).
Defined.

Lemma generated_links_are_one_to_one_witness :
  ex_generated = (Ok ex_records, ex_generated.2)
  ∧ NoDup (ex_uuid <$> seq 0 (length (first_rows ex_rows)))
  ∧ NoDup (user_uids ex_records)
  ∧ machine_links ex_records = user_uids ex_records
  ∧ uuid_calls ex_generated.2 = 0 + size (hostnames ex_rows).
Proof.
  assert (NoDup (ex_uuid <$> seq 0 (length (first_rows ex_rows)))) as Hfresh
    by (apply (bool_decide_unpack _); vm_compute; exact I).
  split; [exact ex_generated_eq|]. split; [exact Hfresh|].
  destruct (generated_links_are_one_to_one ex_stamp ex_asctime ex_uuid ex_rows
              (ex_args false false) (ex_world ex_csv_text) ex_generated.2
              ex_records ex_generated_eq Hfresh)
    as (Hnodup & Hlinks & _ & Hcalls).
  split; [exact Hnodup|]. split; [exact Hlinks|exact Hcalls].
Defined.

Lemma gen_records_keeps_distinct_rows_witness :
  NoDup (hostname <$> [web1; app1])
  ∧ default_port (protocol (ex_args false false)) = Ok 3306%Z
  ∧ (_gen_records ex_stamp ex_asctime ex_uuid [web1; app1]
       (ex_args false false) (ex_world ex_csv_text)).1
    = Ok (record_pairs ex_uuid (ex_args false false) (Py.str_int 3306) 0
            [web1; app1])
  ∧ console (_gen_records ex_stamp ex_asctime ex_uuid [web1; app1]
               (ex_args false false) (ex_world ex_csv_text)).2
    = [].
Proof.
  assert (NoDup (hostname <$> [web1; app1])) as Hnodup
    by (apply (bool_decide_unpack _); vm_compute; exact I).
  split; [exact Hnodup|]. split; [reflexivity|].
  destruct (gen_records_keeps_distinct_rows ex_stamp ex_asctime ex_uuid
              [web1; app1] (ex_args false false) (ex_world ex_csv_text)
              3306%Z Hnodup eq_refl)
    as (Hv & Hc & _).
  split; [exact Hv|exact Hc].
Defined.

Definition header_only_loaded : result (list host_row) * world :=
  load_rows ex_stamp ex_asctime plain_csv_reader (ex_net [])
    (ex_args false false) [] (ex_world header_only_csv_text).

Lemma header_only_loaded_eq :
  header_only_loaded = (Ok [], header_only_loaded.2).
Proof. vm_compute. reflexivity. Qed.

Lemma main_without_rows_writes_headers_witness :
  header_only_loaded = (Ok [], header_only_loaded.2)
  ∧ default_port (protocol (ex_args false false)) = Ok 3306%Z
  ∧ dry_run (ex_args false false) = false
  ∧ (main ex_stamp ex_asctime ex_header_stamp ex_uuid plain_csv_reader
       (ex_net []) (ex_args false false) []
       (ex_world header_only_csv_text)).1 = Ok ()
  ∧ fs (main ex_stamp ex_asctime ex_header_stamp ex_uuid plain_csv_reader
          (ex_net []) (ex_args false false) []
          (ex_world header_only_csv_text)).2 !! "pam_records_import.json"
    = Some empty_import_text.
Proof.
  split; [exact header_only_loaded_eq|]. split; [reflexivity|].
  split; [reflexivity|].
  destruct (main_without_rows_writes_headers ex_stamp ex_asctime
              ex_header_stamp ex_uuid plain_csv_reader (ex_net [])
              (ex_args false false) [] (ex_world header_only_csv_text)
              header_only_loaded.2 3306%Z header_only_loaded_eq eq_refl
              eq_refl)
    as (Hv & Hjson & _).
  split; [exact Hv|exact Hjson].
Defined.

Lemma connection_writer_unknown_protocol_witness :
  protocol_accepted (protocol telnet_args) = false
  ∧ write_connection_commands ex_stamp ex_asctime ex_header_stamp
      [web1; app1] telnet_args (ex_world ex_csv_text)
    = (Raise (KeyError "telnet"), ex_world ex_csv_text).
Proof.
  split; [reflexivity|].
  exact (proj1 (connection_writer_unknown_protocol ex_stamp ex_asctime
                  ex_header_stamp telnet_args web1 [app1]
                  (ex_world ex_csv_text) eq_refl)).
Defined.


Lemma default_threads_are_accepted_witness :
  (0 ≤ 8)%Z
  ∧ (5 ≤ default_threads (Some 8%Z) ≤ 32)%Z
  ∧ ThreadPoolExecutor (default_threads (Some 8%Z)) no_files
    = (Ok (), no_files).
Proof.
  assert (0 ≤ 8)%Z as Hcpu by lia.
  split; [exact Hcpu|].
  exact (default_threads_are_accepted (Some 8%Z) no_files Hcpu).
Defined.

Lemma write_import_json_keeps_any_records_witness :
  forallb well_formed [JObj [("uid", JStr "1")]] = true
  ∧ ∃ text doc,
      fs (write_import_json ex_stamp ex_asctime [JObj [("uid", JStr "1")]]
            (ex_args false false) no_files).2 !! "pam_records_import.json"
      = Some text
      ∧ Json.loads text = Some doc
      ∧ json_get "records" doc = Some (JArr [JObj [("uid", JStr "1")]])
      ∧ json_get "shared_folders" doc = Some (JArr []).
Proof.
  split; [reflexivity|].
  destruct (write_import_json_keeps_any_records ex_stamp ex_asctime
              [JObj [("uid", JStr "1")]] (ex_args false false) no_files
              eq_refl)
    as (_ & _ & Hwritten).
  exact (Hwritten eq_refl).
Defined.

Lemma main_succeeds_on_well_formed_input_witness :
  fs (ex_world ex_csv_text) !! csv (ex_args false true) = Some ex_csv_text
  ∧ forallb has_all_fields (DictReader (plain_csv_reader ex_csv_text)) = true
  ∧ (0 < threads (ex_args false true))%Z
  ∧ [app1; web1]
    = reachable_as_completed (ex_net [true; false; true])
        (omap entry_of (DictReader (plain_csv_reader ex_csv_text))) [2; 0; 1]
  ∧ (main ex_stamp ex_asctime ex_header_stamp ex_uuid plain_csv_reader
       (ex_net [true; false; true]) (ex_args false true) [2; 0; 1]
       (ex_world ex_csv_text)).1 = Ok ()
  ∧ fs (main ex_stamp ex_asctime ex_header_stamp ex_uuid plain_csv_reader
          (ex_net [true; false; true]) (ex_args false true) [2; 0; 1]
          (ex_world ex_csv_text)).2 !! "pam_connection_commands.txt"
    = Some (Py.join NL
              (_cmdfile_header ex_header_stamp "CONNECTIONS"
               :: connection_commands (ex_args false true) 3306%Z
                    [app1; web1]) +:+ NL).
Proof.
  assert (fs (ex_world ex_csv_text) !! csv (ex_args false true)
          = Some ex_csv_text) as Hfs by (vm_compute; reflexivity).
  assert (forallb has_all_fields (DictReader (plain_csv_reader ex_csv_text))
          = true) as Hall by (vm_compute; reflexivity).
  assert (0 < threads (ex_args false true))%Z as Hpool by (simpl; lia).
  assert ([app1; web1]
          = reachable_as_completed (ex_net [true; false; true])
              (omap entry_of (DictReader (plain_csv_reader ex_csv_text)))
              [2; 0; 1]) as Hkept by (vm_compute; reflexivity).
  split; [exact Hfs|]. split; [exact Hall|]. split; [exact Hpool|].
  split; [exact Hkept|].
  destruct (main_succeeds_on_well_formed_input ex_stamp ex_asctime
              ex_header_stamp ex_uuid plain_csv_reader
              (ex_net [true; false; true]) (ex_args false true) [2; 0; 1]
              (ex_world ex_csv_text) ex_csv_text 3306%Z [app1; web1]
              Hfs Hall (λ _, Hpool) (ex_net_oserror _) eq_refl eq_refl Hkept)
    as (Hv & _ & Hconn & _).
  split; [exact Hv|exact Hconn].
Defined.
